(** * school.py: course schedule queries and command dispatch

    A shallow embedding of the scheduling assistant [school.py]:
    the strict dataclasses and the loader that builds them from YAML
    documents, the sorted-courses query, the ongoing / next / identifier
    queries, and the decision-tree dispatcher that routes command-line
    tokens.

    Conventions.
    - Python [int] is [Z]; [len] is [nat].
    - Python [str] is [string], one [ascii] per character: the model is
      of ASCII text, on which [str.lower] maps the letters A-Z and leaves
      every other character alone.
    - A raised exception is a value of [exn]; code that can raise returns
      [result].
    - [sorted] is Python's stable sort: keys are computed once per element,
      then the elements are ordered by their keys, equal keys keeping
      their input order.
    - The wall clock ([datetime.today()]) is an explicit argument. *)

From Stdlib Require Import List ZArith Lia Bool Arith String Ascii.
From Stdlib Require Import Permutation Sorted DecimalString.

Set Warnings "-register-all".
Import ListNotations.

Local Open Scope string_scope.
Local Open Scope list_scope.

(** ** Exceptions and results *)

Inductive exn : Type :=
| StrictTypeError (key cls expected actual : string)
    (* the TypeError raised by Strict.__post_init__ *)
| BuiltinTypeError (what : string)
    (* a TypeError raised by the interpreter itself *)
| KeyError (key : string)
| ValueError
| IndexError
| AttributeError
| YAMLError (what : string)
| SystemExit (msg : string).

Inductive result (A : Type) : Type :=
| Ok (a : A)
| Raise (e : exn).

Arguments Ok {A} a.
Arguments Raise {A} e.

Definition bind {A B : Type} (r : result A) (k : A -> result B) : result B :=
  match r with
  | Ok a => k a
  | Raise e => Raise e
  end.

Notation "x <- r ;; k" := (bind r (fun x => k))
  (at level 61, r at next level, right associativity).

Fixpoint mapM {A B : Type} (f : A -> result B) (l : list A) : result (list B) :=
  match l with
  | [] => Ok []
  | x :: l' => y <- f x ;; ys <- mapM f l' ;; Ok (y :: ys)
  end.

(** A list comprehension [[x for x in l if p x]] whose condition can raise. *)
Fixpoint filterM {A : Type} (p : A -> result bool) (l : list A) : result (list A) :=
  match l with
  | [] => Ok []
  | x :: l' =>
      b <- p x ;; ys <- filterM p l' ;; Ok (if b then x :: ys else ys)
  end.

(** ** Strings *)

Definition lower_ascii (c : ascii) : ascii :=
  let n := nat_of_ascii c in
  if (65 <=? n)%nat && (n <=? 90)%nat then ascii_of_nat (n + 32) else c.

(** [str.lower] *)
Fixpoint lower (s : string) : string :=
  match s with
  | EmptyString => EmptyString
  | String c s' => String (lower_ascii c) (lower s')
  end.

(** [s.startswith(p)] *)
Definition startswith (s p : string) : bool := String.prefix p s.

(** [s.split(sep)] for a one-character separator: the parts between the
    occurrences of [sep], always at least one part. *)
Fixpoint split (sep : ascii) (s : string) : list string :=
  match s with
  | EmptyString => [EmptyString]
  | String c s' =>
      if Ascii.eqb c sep then EmptyString :: split sep s'
      else match split sep s' with
           | [] => [String c EmptyString]
           | p :: ps => String c p :: ps
           end
  end.

(** [s[0]] *)
Definition first_char (s : string) : result string :=
  match s with
  | EmptyString => Raise IndexError
  | String c _ => Ok (String c EmptyString)
  end.

(** [t.index(x)] on a tuple *)
Fixpoint index_of (x : string) (t : list string) : result Z :=
  match t with
  | [] => Raise ValueError
  | y :: t' => if String.eqb y x then Ok 0%Z
               else i <- index_of x t' ;; Ok (1 + i)%Z
  end.

(** [sep.join(parts)] *)
Definition join (sep : string) (parts : list string) : string :=
  String.concat sep parts.

(** ** Python's ordering of tuples

    Tuples compare lexicographically, a proper prefix being smaller;
    strings compare by code point, which is [String.compare]. *)

Fixpoint tuple_compare (t1 t2 : list string) : comparison :=
  match t1, t2 with
  | [], [] => Eq
  | [], _ :: _ => Lt
  | _ :: _, [] => Gt
  | s1 :: t1', s2 :: t2' =>
      match String.compare s1 s2 with
      | Eq => tuple_compare t1' t2'
      | ne => ne
      end
  end.

(** [(n1, t1) <= (n2, t2)] for a pair of a length and a tuple of strings *)
Definition decision_leb (a b : nat * list string) : bool :=
  match Nat.compare (fst a) (fst b) with
  | Lt => true
  | Gt => false
  | Eq => match tuple_compare (snd a) (snd b) with Gt => false | _ => true end
  end.

(** [(w1, s1) <= (w2, s2)] for a pair of integers *)
Definition pair_leb (a b : Z * Z) : bool :=
  ((fst a <? fst b) || ((fst a =? fst b) && (snd a <=? snd b)))%Z.

(** ** [sorted(xs, key=...)]

    [insert] places an element in front of the first element whose key is
    not smaller, so an element that came earlier in the input stays ahead
    of later elements with the same key. *)

Section StableSort.
Context {K A : Type}.
Variable key : A -> K.
Variable leb : K -> K -> bool.

Fixpoint insert (x : A) (l : list A) : list A :=
  match l with
  | [] => [x]
  | y :: l' => if leb (key x) (key y) then x :: l else y :: insert x l'
  end.

Definition sorted (l : list A) : list A := fold_right insert [] l.

Definition le_key (a b : A) : Prop := leb (key a) (key b) = true.
End StableSort.

(** [a] occurs somewhere before [b] in [l]. *)
Definition precedes {A : Type} (a b : A) (l : list A) : Prop :=
  exists l1 l2 l3, l = l1 ++ a :: l2 ++ b :: l3.

(** ** The course model (lines 60-107)

    [Course] carries the fields the queries read.  [teacher], [finals] and
    [other] are only printed, never inspected by a query, and live in the
    loader's model below. *)

Record Classroom : Type := {
  address : option string;
  number : option string;
  floor : option Z
}.

Record Time : Type := {
  day : string;
  start : Z;
  end_ : Z;
  weeks : option string
}.

Record Course : Type := {
  name : string;
  type : string;
  abbreviation : string;
  time : option Time;
  classroom : option Classroom;
  website : option string
}.

(** [datetime.today()], as far as the program looks at it *)
Record datetime : Type := {
  today_weekday : Z;   (* today.weekday(), 0 = Monday *)
  hour : Z;
  minute : Z
}.

Definition WD_EN : list string :=
  ["monday"; "tuesday"; "wednesday"; "thursday"; "friday"; "saturday"; "sundnay"].

(** The seven English weekday names, Monday first. *)
Definition canonical_weekdays : list string :=
  ["monday"; "tuesday"; "wednesday"; "thursday"; "friday"; "saturday"; "sunday"].

(** [Course.weekday] *)
Definition weekday (self : Course) : result Z :=
  match time self with
  | None => Raise AttributeError
  | Some t => index_of (lower (day t)) WD_EN
  end.

(** [Course.is_ongoing] *)
Definition is_ongoing (today : datetime) (self : Course) : result bool :=
  w <- weekday self ;;
  match time self with
  | None => Raise AttributeError
  | Some t =>
      let m := (hour today * 60 + minute today)%Z in
      Ok ((today_weekday today =? w)%Z && ((start t <=? m)%Z && (m <=? end_ t)%Z))
  end.

(** ** The sorted-courses query (lines 288-323)

    [discovered] stands for the courses the directory walk finds, in the
    order it finds them, each already built from its file; a definition
    without a [time] section is only kept when [include_unscheduled]. *)

Definition has_time (c : Course) : bool :=
  match time c with Some _ => true | None => false end.

(** The key [lambda c: (0, 0) if not c.time else (c.weekday(), c.time.start)] *)
Definition sort_key (c : Course) : result (Z * Z) :=
  match time c with
  | None => Ok (0, 0)%Z
  | Some t => w <- weekday c ;; Ok (w, start t)
  end.

Definition decorate (c : Course) : result ((Z * Z) * Course) :=
  k <- sort_key c ;; Ok (k, c).

Definition get_sorted_courses (discovered : list Course)
    (include_unscheduled : bool) : result (list Course) :=
  let courses := filter (fun c => has_time c || include_unscheduled) discovered in
  decorated <- mapM decorate courses ;;
  Ok (map snd (sorted fst pair_leb decorated)).

(** ** Ongoing, next and identifier queries (lines 185-245) *)

Fixpoint first_ongoing (today : datetime) (courses : list Course)
  : result (option Course) :=
  match courses with
  | [] => Ok None
  | course :: rest =>
      b <- is_ongoing today course ;;
      if b then Ok (Some course) else first_ongoing today rest
  end.

Definition get_ongoing_course (today : datetime) (discovered : list Course)
  : result (option Course) :=
  courses <- get_sorted_courses discovered false ;;
  first_ongoing today courses.

Definition MID : Z := 1440.
Definition MIW : Z := 10080.

Definition current_week_time (today : datetime) : Z :=
  (today_weekday today * MID + hour today * 60 + minute today)%Z.

Definition time_to_course (today : datetime) (course : Course) : result Z :=
  match time course with
  | None => Raise AttributeError
  | Some t =>
      w <- weekday course ;;
      Ok (((start t + w * MID) - current_week_time today) mod MIW)%Z
  end.

(** [min_time] starts as [float("+inf")] and is an integer afterwards. *)
Inductive min_time_t : Type :=
| PlusInf
| Minutes (z : Z).

Definition below (z : Z) (m : min_time_t) : bool :=
  match m with
  | PlusInf => true
  | Minutes m' => (z <? m')%Z
  end.

Fixpoint next_loop (today : datetime) (courses : list Course)
    (min_time : min_time_t) (min_course : option Course) : result (option Course) :=
  match courses with
  | [] => Ok min_course
  | course :: rest =>
      t <- time_to_course today course ;;
      if below t min_time
      then next_loop today rest (Minutes t) (Some course)
      else next_loop today rest min_time min_course
  end.

(** The branch for the argument ["n"] or ["next"] *)
Definition next_course (today : datetime) (discovered : list Course)
  : result (list (option Course)) :=
  courses <- get_sorted_courses discovered false ;;
  min_course <- next_loop today courses PlusInf None ;;
  Ok [min_course].

(** [type in {None, course.type[0]}] *)
Definition type_matches (type_prefix : option string) (course : Course)
  : result bool :=
  letter <- first_char (type course) ;;
  Ok (match type_prefix with
      | None => true
      | Some t => String.eqb t letter
      end).

Section Identifier.
(** [unidecode.unidecode], the transliteration to ASCII of an outside
    library *)
Variable unidecode : string -> string.

Definition by_abbreviation (abbr : string) (type_prefix : option string)
    (course : Course) : result bool :=
  if String.eqb abbr (lower (abbreviation course))
  then type_matches type_prefix course
  else Ok false.

Definition by_name (abbr : string) (type_prefix : option string)
    (course : Course) : result bool :=
  if startswith (unidecode (lower (name course))) (unidecode (lower abbr))
  then type_matches type_prefix course
  else Ok false.

(** [get_course_from_argument] on a string *)
Definition get_course_from_string (today : datetime) (discovered : list Course)
    (argument : string) : result (list (option Course)) :=
  if String.eqb argument "n" || String.eqb argument "next"
  then next_course today discovered
  else
    let parts := split "-" (lower argument) in
    let abbr := hd EmptyString parts in
    let type_prefix :=
      if (List.length parts =? 1)%nat then None
      else Some (nth 1 parts EmptyString) in
    courses <- get_sorted_courses discovered false ;;
    abbr_courses <- filterM (by_abbreviation abbr type_prefix) courses ;;
    if negb (List.length abbr_courses =? 0)%nat
    then Ok (map Some abbr_courses)
    else
      courses' <- get_sorted_courses discovered false ;;
      named <- filterM (by_name abbr type_prefix) courses' ;;
      Ok (map Some named).

(** [get_course_from_argument]; [None] is the absent argument *)
Definition get_course_from_argument (today : datetime) (discovered : list Course)
    (argument : option string) : result (list (option Course)) :=
  match argument with
  | None =>
      ongoing <- get_ongoing_course today discovered ;;
      match ongoing with
      | Some c => Ok [Some c]
      | None => get_course_from_string today discovered "next"
      end
  | Some a => get_course_from_string today discovered a
  end.

(** [list_attribute] with no attribute named: the value it prints *)
Definition list_attribute (today : datetime) (discovered : list Course)
    (argument : option string) : result (option Course) :=
  courses <- get_course_from_argument today discovered argument ;;
  match courses with
  | [] => Raise (SystemExit "No course matching the criteria.")
  | [course] => Ok course
  | _ => Raise (SystemExit "Multiple courses matching the identifier.")
  end.
End Identifier.

(** ** The command dispatcher (lines 759-873) *)

Inductive action : Type :=
| do_list_courses | do_list_attribute | do_list_finals | do_list_timeline
| do_compile_cron_jobs | do_compile_notes
| do_open_config
| do_check_all_websites | do_check_course_website
| do_open_folder | do_open_website | do_open_notes | do_open_script.

(** A node is a [dict] from alias tuples to nodes, or a pair of a callable
    and its description.  The items of a [dict] are kept in insertion
    order; its keys are pairwise distinct. *)
Inductive tree (A : Type) : Type :=
| Leaf (f : A) (description : string)
| Dict (items : list (list string * tree A)).

Arguments Leaf {A} f description.
Arguments Dict {A} items.

Definition decision_tree : tree action :=
  Dict [
    (["list"], Dict [
       (["courses"], Leaf do_list_courses "List information about the courses.");
       (["attribute"], Leaf do_list_attribute "List the given course attribute.");
       (["finals"], Leaf do_list_finals "List dates of all finals.");
       (["timeline"], Leaf do_list_timeline "List the courses in a timeline.")]);
    (["compile"], Dict [
       (["cron"], Leaf do_compile_cron_jobs "Add crontab notifications for all courses.");
       (["notes"], Leaf do_compile_notes "Run md_to_pdf script on all course notes.")]);
    (["config"], Leaf do_open_config "Open the course directory in Ranger.");
    (["check"], Dict [
       (["all"], Leaf do_check_all_websites "Update all website caches.");
       (["course"], Leaf do_check_course_website
          "Check, whether the course website has changed.")]);
    (["open"], Dict [
       (["folder"; "course"], Leaf do_open_folder "Open the course's folder in Ranger.");
       (["website"], Leaf do_open_website "Open the course's website in FireFox.");
       (["notes"], Leaf do_open_notes "Open the course's notes in Xournal++.");
       (["script"], Leaf do_open_script "Open this script in Vim.")])
  ].

(** [max(xs)] *)
Definition py_max (xs : list nat) : result nat :=
  match xs with
  | [] => Raise ValueError
  | x :: xs' => Ok (fold_left Nat.max xs' x)
  end.

(** [max([len(argument) if s.startswith(argument) else 0 for s in d])] *)
Definition score (argument : string) (d : list string) : result nat :=
  py_max (map (fun s => if startswith s argument then String.length argument else 0%nat) d).

(** [', '.join(' or '.join(d) for d in ds)] between braces *)
Definition show_decisions (ds : list (list string)) : string :=
  "{" ++ join ", " (map (join " or ") ds) ++ "}".

Definition unmatched_message (argument : string) (ds : list (list string)) : string :=
  "ERROR: '" ++ argument ++ "' doesn't match decisions in the decision tree: "
  ++ show_decisions ds.

Definition ambiguous_message (argument : string) (ds : list (list string)) : string :=
  "ERROR: Ambiguous decisions for '" ++ argument ++ "': " ++ show_decisions ds.

Definition remaining_message (ds : list (list string)) : string :=
  "ERROR: Decisions remaining: " ++ show_decisions ds.

(** [decision_tree[d]] *)
Fixpoint getitem {A : Type} (d : list string) (items : list (list string * tree A))
  : option (tree A) :=
  match items with
  | [] => None
  | (d', sub) :: items' =>
      if list_eq_dec string_dec d' d then Some sub else getitem d items'
  end.

Definition score_item {A : Type} (argument : string) (item : list string * tree A)
  : result (nat * list string) :=
  s <- score argument (fst item) ;; Ok (s, fst item).

(** One turn of the loop at a [dict] node: the alias tuple chosen for
    [argument] and the node under it. *)
Definition descend {A : Type} (argument : string)
    (items : list (list string * tree A)) : result (list string * tree A) :=
  scored <- mapM (score_item argument) items ;;
  let decisions := sorted (fun x => x) decision_leb scored in
  match decisions with
  | [] => Raise IndexError
  | _ :: _ =>
      let best := fst (last decisions (0%nat, [])) in
      if (best =? 0)%nat
      then Raise (SystemExit (unmatched_message argument (map fst items)))
      else
        let decisions' := filter (fun x => (fst x =? best)%nat) decisions in
        if (1 <? List.length decisions')%nat
        then Raise (SystemExit (ambiguous_message argument (map snd decisions')))
        else
          match decisions' with
          | [] => Raise IndexError
          | (_, d) :: _ =>
              match getitem d items with
              | Some sub => Ok (d, sub)
              | None => Raise (KeyError (join ", " d))
              end
          end
  end.

(** The loop down the tree: the callable reached, the arguments left for
    it and the alias tuples passed on the way. *)
Fixpoint dispatch {A : Type} (arguments : list string) (node : tree A)
    (parsed_arguments : list (list string)) {struct arguments}
  : result (A * list string * list (list string)) :=
  match node with
  | Leaf f _ => Ok (f, arguments, parsed_arguments)
  | Dict items =>
      match arguments with
      | [] => Raise (SystemExit (remaining_message (map fst items)))
      | argument :: rest =>
          choice <- descend argument items ;;
          dispatch rest (snd choice) (parsed_arguments ++ [fst choice])
      end
  end.

(** The score the specification words: the longest alias that starts with
    the token. *)
Definition alias_length_score (argument : string) (d : list string) : nat :=
  fold_right Nat.max 0%nat
    (map (fun s => if startswith s argument then String.length s else 0%nat) d).

(** The module body after flag parsing: with no argument left the help is
    printed and the program exits; otherwise the tree is walked. *)
Definition main (arguments : list string)
  : result (action * list string * list (list string)) :=
  match arguments with
  | [] => Raise (SystemExit "")
  | _ :: _ => dispatch arguments decision_tree []
  end.

(** ** The strict dataclasses and the loader (lines 20-94, 148-161, 293-319)

    Here values are dynamically typed, as [safe_load] hands them over. *)

Inductive cls : Type := CTeacher | CClassroom | CTime | CFinals | CCourse.

Inductive pytype : Type :=
| Tstr | Tint | Tbool | Tfloat | Tlist | Tdict | Tdate | Tdatetime | TNoneType
| Tclass (c : cls).

(** A field annotation: [Any], a class, or [Union[...]] of classes *)
Inductive annotation : Type :=
| Any
| Plain (t : pytype)
| Union (ts : list pytype).

Record field : Type := {
  fname : string;
  ftype : annotation;
  required : bool      (* declared without a default *)
}.

(** A mapping key: a string, or some other hashable scalar given by its
    [repr]. *)
Inductive hashable : Type :=
| KStr (s : string)
| KOther (repr : string).

Inductive value : Type :=
| VNone
| VBool (b : bool)
| VInt (z : Z)
| VFloat (repr : string) (nonzero : bool)
| VStr (s : string)
| VList (xs : list value)
| VDict (items : list (hashable * value))
| VDate (repr : string)
| VDatetime (repr : string)
| VObj (c : cls) (attrs : list (string * value)).

Definition class_name (c : cls) : string :=
  match c with
  | CTeacher => "Teacher"
  | CClassroom => "Classroom"
  | CTime => "Time"
  | CFinals => "Finals"
  | CCourse => "Course"
  end.

(** [t.__name__] *)
Definition type_name (t : pytype) : string :=
  match t with
  | Tstr => "str" | Tint => "int" | Tbool => "bool" | Tfloat => "float"
  | Tlist => "list" | Tdict => "dict" | Tdate => "date"
  | Tdatetime => "datetime" | TNoneType => "NoneType"
  | Tclass c => class_name c
  end.

(** [type(v)] *)
Definition type_of (v : value) : pytype :=
  match v with
  | VNone => TNoneType
  | VBool _ => Tbool
  | VInt _ => Tint
  | VFloat _ _ => Tfloat
  | VStr _ => Tstr
  | VList _ => Tlist
  | VDict _ => Tdict
  | VDate _ => Tdate
  | VDatetime _ => Tdatetime
  | VObj c _ => Tclass c
  end.

Definition cls_eqb (a b : cls) : bool :=
  match a, b with
  | CTeacher, CTeacher | CClassroom, CClassroom | CTime, CTime
  | CFinals, CFinals | CCourse, CCourse => true
  | _, _ => false
  end.

Definition pytype_eqb (a b : pytype) : bool :=
  match a, b with
  | Tstr, Tstr | Tint, Tint | Tbool, Tbool | Tfloat, Tfloat | Tlist, Tlist
  | Tdict, Tdict | Tdate, Tdate | Tdatetime, Tdatetime
  | TNoneType, TNoneType => true
  | Tclass c, Tclass c' => cls_eqb c c'
  | _, _ => false
  end.

(** [issubclass(a, b)]: [bool] derives from [int], [datetime] from [date] *)
Definition issubclass (a b : pytype) : bool :=
  pytype_eqb a b ||
  match a, b with
  | Tbool, Tint => true
  | Tdatetime, Tdate => true
  | _, _ => false
  end.

Definition isinstance (v : value) (t : pytype) : bool :=
  issubclass (type_of v) t.

(** [__annotations__] of each dataclass, in declaration order *)
Definition fields_of (c : cls) : list field :=
  match c with
  | CTeacher =>
      [ {| fname := "name"; ftype := Union [Tstr; Tlist]; required := true |};
        {| fname := "email"; ftype := Union [Tstr; Tlist]; required := false |};
        {| fname := "website"; ftype := Plain Tstr; required := false |};
        {| fname := "office"; ftype := Plain Tstr; required := false |};
        {| fname := "note"; ftype := Plain Tstr; required := false |} ]
  | CClassroom =>
      [ {| fname := "address"; ftype := Plain Tstr; required := false |};
        {| fname := "number"; ftype := Plain Tstr; required := false |};
        {| fname := "floor"; ftype := Plain Tint; required := false |} ]
  | CTime =>
      [ {| fname := "day"; ftype := Plain Tstr; required := true |};
        {| fname := "start"; ftype := Plain Tint; required := true |};
        {| fname := "end"; ftype := Plain Tint; required := true |};
        {| fname := "weeks"; ftype := Plain Tstr; required := false |} ]
  | CFinals =>
      [ {| fname := "date"; ftype := Plain Tdate; required := true |};
        {| fname := "classroom"; ftype := Plain (Tclass CClassroom); required := true |} ]
  | CCourse =>
      [ {| fname := "name"; ftype := Plain Tstr; required := true |};
        {| fname := "type"; ftype := Plain Tstr; required := true |};
        {| fname := "abbreviation"; ftype := Plain Tstr; required := true |};
        {| fname := "teacher"; ftype := Plain (Tclass CTeacher); required := false |};
        {| fname := "time"; ftype := Plain (Tclass CTime); required := false |};
        {| fname := "classroom"; ftype := Plain (Tclass CClassroom); required := false |};
        {| fname := "website"; ftype := Plain Tstr; required := false |};
        {| fname := "finals"; ftype := Plain (Tclass CFinals); required := false |};
        {| fname := "other"; ftype := Any; required := false |} ]
  end.

(** [d.get(k)] on a list of pairs with string keys *)
Fixpoint assoc {V : Type} (k : string) (l : list (string * V)) : option V :=
  match l with
  | [] => None
  | (k', v) :: l' => if String.eqb k' k then Some v else assoc k l'
  end.

(** [fieldtypes[f]] *)
Definition fieldtype (c : cls) (f : string) : option annotation :=
  assoc f (map (fun fd => (fname fd, ftype fd)) (fields_of c)).

(** [get_args(t) if get_origin(t) is Union else [t]] *)
Definition alternatives (ann : annotation) : list pytype :=
  match ann with
  | Any => []
  | Plain t => [t]
  | Union ts => ts
  end.

(** The class a field annotation names when [is_dataclass] holds of it *)
Definition dataclass_of (ann : annotation) : option cls :=
  match ann with
  | Plain (Tclass c) => Some c
  | _ => None
  end.

Definition repr_str (s : string) : string := "'" ++ s ++ "'".

Section Loader.
(** What [typing.Union[...].__name__] evaluates to: the interpreter's
    answer, an [AttributeError] on the older ones. *)
Variable union_name : result string.

(** [field_type.__name__] *)
Definition annotation_name (ann : annotation) : result string :=
  match ann with
  | Any => Ok "Any"
  | Plain t => Ok (type_name t)
  | Union _ => union_name
  end.

(** One turn of the loop of [Strict.__post_init__] *)
Definition check_field (c : cls) (fd : field) (v : value) : result unit :=
  match v, ftype fd with
  | VNone, _ => Ok tt
  | _, Any => Ok tt
  | _, ann =>
      if existsb (isinstance v) (alternatives ann) then Ok tt
      else
        expected <- annotation_name ann ;;
        Raise (StrictTypeError (fname fd) (class_name c) expected
                 (type_name (type_of v)))
  end.

Fixpoint check_fields (c : cls) (fds : list field) (attrs : list (string * value))
  : result unit :=
  match fds with
  | [] => Ok tt
  | fd :: fds' =>
      match assoc (fname fd) attrs with
      | None => Raise (KeyError (repr_str (fname fd)))
      | Some v => _ <- check_field c fd v ;; check_fields c fds' attrs
      end
  end.

(** [Strict.__post_init__] on an instance of [c] with the attributes
    [attrs] *)
Definition post_init (c : cls) (attrs : list (string * value)) : result unit :=
  check_fields c (fields_of c) attrs.

Definition has_key {V : Type} (k : string) (l : list (string * V)) : bool :=
  match assoc k l with Some _ => true | None => false end.

(** The call of class [c] on the keyword arguments [kwargs]: the generated
    [__init__] binds the keywords, fills the defaults with [None], and runs
    [__post_init__]. *)
Definition construct (c : cls) (kwargs : list (string * value)) : result value :=
  if existsb (fun kv => negb (has_key (fst kv)
                                (map (fun fd => (fname fd, tt)) (fields_of c)))) kwargs
  then Raise (BuiltinTypeError "__init__() got an unexpected keyword argument")
  else if existsb (fun fd => required fd && negb (has_key (fname fd) kwargs))
            (fields_of c)
  then Raise (BuiltinTypeError "__init__() missing required positional arguments")
  else
    let attrs :=
      map (fun fd => (fname fd,
                      match assoc (fname fd) kwargs with
                      | Some v => v
                      | None => VNone
                      end)) (fields_of c) in
    _ <- post_init c attrs ;;
    Ok (VObj c attrs).

(** [repr] of a value used as a key; [None] for the unhashable ones *)
Definition repr_key (v : value) : option string :=
  match v with
  | VNone => Some "None"
  | VBool true => Some "True"
  | VBool false => Some "False"
  | VInt z => Some (DecimalString.NilZero.string_of_int (Z.to_int z))
  | VFloat r _ => Some r
  | VStr s => Some (repr_str s)
  | VDate r => Some r
  | VDatetime r => Some r
  | VList _ | VDict _ | VObj _ _ => None
  end.

(** [Course.__from_dictionary(c, d)] *)
Fixpoint from_dictionary (c : annotation) (d : value) {struct d} : result value :=
  match dataclass_of c with
  | None => Ok d
  | Some k =>
      match d with
      | VDict items =>
          kwargs <-
            (fix convert (items : list (hashable * value))
               : result (list (string * value)) :=
               match items with
               | [] => Ok []
               | (KOther r, _) :: _ => Raise (KeyError r)
               | (KStr f, v) :: rest =>
                   match fieldtype k f with
                   | None => Raise (KeyError (repr_str f))
                   | Some ann =>
                       v' <- from_dictionary ann v ;;
                       kws <- convert rest ;;
                       Ok ((f, v') :: kws)
                   end
               end) items ;;
          construct k kwargs
      | VList [] => construct k []
      | VList (x :: _) =>
          match x with
          | VStr f =>
              match fieldtype k f with
              | None => Raise (KeyError (repr_str f))
              | Some _ =>
                  Raise (BuiltinTypeError
                           "list indices must be integers or slices, not str")
              end
          | _ =>
              match repr_key x with
              | Some r => Raise (KeyError r)
              | None => Raise (BuiltinTypeError "unhashable type")
              end
          end
      | VStr EmptyString => construct k []
      | VStr (String ch _) =>
          match fieldtype k (String ch EmptyString) with
          | None => Raise (KeyError (repr_str (String ch EmptyString)))
          | Some _ => Raise (BuiltinTypeError "string indices must be integers")
          end
      | _ => Raise (BuiltinTypeError
                      ("'" ++ type_name (type_of d) ++ "' object is not iterable"))
      end
  end.

(** [bool(v)] *)
Definition truthy (v : value) : bool :=
  match v with
  | VNone => false
  | VBool b => b
  | VInt z => negb (z =? 0)%Z
  | VFloat _ nz => nz
  | VStr s => negb (String.eqb s EmptyString)
  | VList xs => negb (List.length xs =? 0)%nat
  | VDict items => negb (List.length items =? 0)%nat
  | _ => true
  end.

Definition hashable_eqb (a b : hashable) : bool :=
  match a, b with
  | KStr s, KStr s' => String.eqb s s'
  | KOther r, KOther r' => String.eqb r r'
  | _, _ => false
  end.

(** [d[k] = v] on a [dict] *)
Fixpoint dict_set (k : hashable) (v : value) (items : list (hashable * value))
  : list (hashable * value) :=
  match items with
  | [] => [(k, v)]
  | (k', v') :: items' =>
      if hashable_eqb k' k then (k, v) :: items'
      else (k', v') :: dict_set k v items'
  end.

(** [k in d] on a [dict] *)
Definition dict_contains (k : hashable) (items : list (hashable * value)) : bool :=
  existsb (fun kv => hashable_eqb (fst kv) k) items.

(** [course_dict[k] = v] *)
Definition setitem (k : string) (v : value) (course_dict : value) : result value :=
  match course_dict with
  | VDict items => Ok (VDict (dict_set (KStr k) v items))
  | VList _ =>
      Raise (BuiltinTypeError "list indices must be integers or slices, not str")
  | _ =>
      Raise (BuiltinTypeError
               ("'" ++ type_name (type_of course_dict)
                ++ "' object does not support item assignment"))
  end.

(** The document with the three entries taken from the path added *)
Definition course_dict_of (course_name course_type course_abbreviation : string)
    (document : value) : result value :=
  let course_dict := if truthy document then document else VDict [] in
  d1 <- setitem "name" (VStr course_name) course_dict ;;
  d2 <- setitem "type" (VStr course_type) d1 ;;
  setitem "abbreviation" (VStr course_abbreviation) d2.

(** The body of the [try] for one file: the course to append, if any *)
Definition load_body (course_name course_type course_abbreviation : string)
    (include_unscheduled : bool) (parsed : result value) : result (option value) :=
  document <- parsed ;;
  course_dict <- course_dict_of course_name course_type course_abbreviation document ;;
  match course_dict with
  | VDict items =>
      if dict_contains (KStr "time") items || include_unscheduled
      then course <- from_dictionary (Plain (Tclass CCourse)) course_dict ;;
           Ok (Some course)
      else Ok None
  | _ => Ok None
  end.

(** [str(e)] for the exceptions the loader reports *)
Definition str_of_exn (e : exn) : string :=
  match e with
  | StrictTypeError key c expected actual =>
      "The key '" ++ key ++ "' in class " ++ c ++ " expected '" ++ expected
      ++ "' but got '" ++ actual ++ "' instead."
  | BuiltinTypeError what => what
  | YAMLError what => what
  | KeyError key => key
  | _ => ""
  end.

(** The two [except] clauses *)
Definition handle (path : string) (e : exn) : exn :=
  match e with
  | YAMLError _ | StrictTypeError _ _ _ _ | BuiltinTypeError _ =>
      SystemExit ("ERROR in " ++ path ++ ": " ++ str_of_exn e)
  | KeyError _ =>
      SystemExit ("ERROR in " ++ path ++ ": Invalid key " ++ str_of_exn e ++ ".")
  | _ => e
  end.

(** One file of the walk: [path], the names cut out of it, and what
    [safe_load] made of its contents *)
Record definition_file : Type := {
  path : string;
  course_name : string;
  course_type : string;
  course_abbreviation : string;
  parsed : result value
}.

Definition load_course (include_unscheduled : bool) (f : definition_file)
  : result (option value) :=
  match load_body (course_name f) (course_type f) (course_abbreviation f)
          include_unscheduled (parsed f) with
  | Ok r => Ok r
  | Raise e => Raise (handle (path f) e)
  end.

(** The loop over the files: the list [courses] before it is sorted *)
Fixpoint load_courses (include_unscheduled : bool) (files : list definition_file)
  : result (list value) :=
  match files with
  | [] => Ok []
  | f :: files' =>
      r <- load_course include_unscheduled f ;;
      rest <- load_courses include_unscheduled files' ;;
      Ok (match r with Some c => c :: rest | None => rest end)
  end.
End Loader.

(** ** Vocabulary of the statements *)

(** The sort keys of [a] and [b] are computed and in order. *)
Definition key_le (a b : Course) : Prop :=
  exists ka kb, sort_key a = Ok ka /\ sort_key b = Ok kb /\ pair_leb ka kb = true.






Definition monday_9 : Course :=
  {| name := "Linear Algebra"; type := "lecture"; abbreviation := "LA";
     time := Some {| day := "monday"; start := 540; end_ := 630; weeks := None |};
     classroom := None; website := None |}.

Definition unscheduled_course : Course :=
  {| name := "Seminar"; type := "practical"; abbreviation := "SE";
     time := None; classroom := None; website := None |}.

Definition on_day (d : string) : Course :=
  {| name := "Linear Algebra"; type := "lecture"; abbreviation := "LA";
     time := Some {| day := d; start := 540; end_ := 630; weeks := None |};
     classroom := None; website := None |}.

(** Monday, 08:30 *)
Definition monday_0830 : datetime :=
  {| today_weekday := 0; hour := 8; minute := 30 |}.


(** A course that started a minute before Monday 08:30 *)
Definition monday_0829 : Course :=
  {| name := "Discrete Mathematics"; type := "practical"; abbreviation := "DM";
     time := Some {| day := "monday"; start := 509; end_ := 520; weeks := None |};
     classroom := None; website := None |}.

(** The character [ch] occurs in [s]. *)
Fixpoint contains (ch : ascii) (s : string) : bool :=
  match s with
  | EmptyString => false
  | String c s' => Ascii.eqb c ch || contains ch s'
  end.

(** The identifier of a course: its abbreviation, the separator and the
    first letter of its type *)
Definition own_identifier (c : Course) (letter : string) : string :=
  abbreviation c ++ "-" ++ letter.


Definition titled : Course :=
  {| name := "Algorithms"; type := "Practical"; abbreviation := "ADS";
     time := Some {| day := "monday"; start := 540; end_ := 630; weeks := None |};
     classroom := None; website := None |}.

(** Some alias of the tuple [d] starts with [argument]. *)
Definition matches (argument : string) (d : list string) : bool :=
  existsb (fun s => startswith s argument) d.

(** The score the code gives the alias tuple [d]: the length of the token
    when some alias starts with it, else 0. *)
Definition token_length_score (argument : string) (d : list string) : nat :=
  if matches argument d then String.length argument else 0%nat.

(** The items whose alias tuple has a positive score *)
Definition candidates {A : Type} (argument : string)
    (items : list (list string * tree A)) : list (list string * tree A) :=
  filter (fun item => (0 <? token_length_score argument (fst item))%nat) items.

(** The items of a [dict] node *)
Definition children {A : Type} (node : tree A) : list (list string * tree A) :=
  match node with
  | Dict items => items
  | Leaf _ _ => []
  end.

(** The value [__init__] stores for the field [fd] *)
Definition field_value (kwargs : list (string * value)) (fd : field) : value :=
  match assoc (fname fd) kwargs with
  | Some v => v
  | None => VNone
  end.

(** The checks of [__post_init__] in a row, each on the value stored for
    its field *)
Fixpoint check_all (union_name : result string) (c : cls) (fds : list field)
    (kwargs : list (string * value)) : result unit :=
  match fds with
  | [] => Ok tt
  | fd :: fds' =>
      _ <- check_field union_name c fd (field_value kwargs fd) ;;
      check_all union_name c fds' kwargs
  end.

(** The keyword arguments [kwargs] with the field [f] given as [v] *)
Definition with_field (f : string) (v : value) (kwargs : list (string * value))
  : list (string * value) :=
  (f, v) :: filter (fun kv => negb (String.eqb (fst kv) f)) kwargs.

(** The dictionary comprehension of [__from_dictionary] over the items of
    a mapping *)
Fixpoint convert_items (union_name : result string) (k : cls)
    (items : list (hashable * value)) : result (list (string * value)) :=
  match items with
  | [] => Ok []
  | (KOther r, _) :: _ => Raise (KeyError r)
  | (KStr f, v) :: rest =>
      match fieldtype k f with
      | None => Raise (KeyError (repr_str f))
      | Some ann =>
          v' <- from_dictionary union_name ann v ;;
          kws <- convert_items union_name k rest ;;
          Ok ((f, v') :: kws)
      end
  end.

(** [d.get(k)] on a [dict] *)
Fixpoint dict_get (k : hashable) (items : list (hashable * value)) : option value :=
  match items with
  | [] => None
  | (k', v) :: items' => if hashable_eqb k' k then Some v else dict_get k items'
  end.

(** A value that is not [None], under an annotation that is neither [Any]
    nor a dataclass, and an instance of none of the annotated classes *)
Definition primitive_mismatch (ann : annotation) (v : value) : bool :=
  match v, ann with
  | VNone, _ => false
  | _, Any => false
  | _, _ =>
      match dataclass_of ann with
      | Some _ => false
      | None => negb (existsb (isinstance v) (alternatives ann))
      end
  end.

(** The mapping [d], read as an instance of [c], holds such a value under
    one of its fields, or under a field of a nested dataclass. *)
Inductive mismatched : cls -> value -> Prop :=
| mismatched_here : forall c items f v ann,
    dict_get (KStr f) items = Some v ->
    fieldtype c f = Some ann ->
    primitive_mismatch ann v = true ->
    mismatched c (VDict items)
| mismatched_below : forall c items f v k,
    In (KStr f, v) items ->
    fieldtype c f = Some (Plain (Tclass k)) ->
    mismatched k v ->
    mismatched c (VDict items).

(** The exceptions the two [except] clauses of the loader catch *)
Definition caught (e : exn) : Prop :=
  match e with
  | StrictTypeError _ _ _ _ | BuiltinTypeError _ | KeyError _ | YAMLError _ => True
  | _ => False
  end.

(** The definition of the scenario: [start] given as a string *)
Definition start_as_string (day_name start_text : string) (end_minute : Z) : value :=
  VDict [(KStr "time",
          VDict [(KStr "day", VStr day_name);
                 (KStr "start", VStr start_text);
                 (KStr "end", VInt end_minute)])].

Definition file_of (p : string) (document : value) : definition_file :=
  {| path := p; course_name := "Linear Algebra"; course_type := "lecture";
     course_abbreviation := "LA"; parsed := Ok document |}.

(** * The rest of the program

    Text that is not ASCII stands in the strings below as its UTF-8
    bytes; it is only ever compared, cut at a length taken from the same
    string, or copied. *)

(** ** Flags (lines 798-812) *)

(** [str(n)] *)
Definition str_of_int (z : Z) : string :=
  DecimalString.NilZero.string_of_int (Z.to_int z).

(** [arguments.pop(i)]: the list without its element at [i] *)
Definition pop_at {X : Type} (i : nat) (l : list X) : list X :=
  firstn i l ++ skipn (S i) l.

Definition is_flag (argument : string) : bool := startswith argument "-".

Definition is_short_flag (argument : string) : bool :=
  String.eqb argument "--short" || String.eqb argument "-s".

(** The [while i < len(arguments)] loop; [fuel] bounds the number of
    turns. *)
Fixpoint flags_loop (fuel : nat) (arguments : list string) (i : nat) (short : bool)
  : option (list string * bool) :=
  if (i <? List.length arguments)%nat then
    match fuel with
    | O => None
    | S fuel' =>
        if negb (is_flag (nth i arguments EmptyString))
        then flags_loop fuel' arguments (i + 1) short
        else
          let argument := nth i arguments EmptyString in
          let arguments' := pop_at i arguments in
          let short' := if is_short_flag argument then true else short in
          flags_loop fuel' arguments' (i + 1) short'
    end
  else Some (arguments, short).

(** The arguments left for the dispatcher and the value of [short] *)
Definition parse_flags (arguments : list string) : option (list string * bool) :=
  flags_loop (List.length arguments) arguments 0 false.

(** What the loop does to the arguments from its index on: a flag is
    taken out and the argument after it is stepped over. *)
Fixpoint after_flags (arguments : list string) : list string * bool :=
  match arguments with
  | [] => ([], false)
  | a :: rest =>
      if negb (is_flag a)
      then (a :: fst (after_flags rest), snd (after_flags rest))
      else
        match rest with
        | [] => ([], is_short_flag a)
        | b :: rest' =>
            (b :: fst (after_flags rest'),
             snd (after_flags rest') || is_short_flag a)
        end
  end.

(** No two flags stand next to each other. *)
Fixpoint flags_apart (arguments : list string) : bool :=
  match arguments with
  | [] => true
  | a :: rest =>
      match rest with
      | [] => true
      | b :: _ => negb (is_flag a && is_flag b) && flags_apart rest
      end
  end.

(** ** Times as text (lines 175-182) *)

(** [get_cron_schedule] *)
Definition get_cron_schedule (time : Z) (day : Z) : string :=
  str_of_int (time mod 60) ++ " " ++ str_of_int (time / 60) ++ " * * "
  ++ str_of_int (day + 1).

(** [s.rjust(width, fill)] *)
Definition rjust (width : nat) (fill : ascii) (s : string) : string :=
  string_of_list_ascii (repeat fill (width - String.length s)) ++ s.

(** [f"{n:02d}"]: zero padding goes after the sign, and a negative number
    fills the two columns by itself. *)
Definition format_02d (z : Z) : string :=
  if (z <? 0)%Z then str_of_int z else rjust 2 "0" (str_of_int z).

(** [minutes_to_HHMM] *)
Definition minutes_to_HHMM (minutes : Z) : string :=
  rjust 2 " " (str_of_int (minutes / 60)) ++ ":" ++ format_02d (minutes mod 60).

(** The value of a decimal digit *)
Definition digit_value (c : ascii) : option Z :=
  let n := nat_of_ascii c in
  if (48 <=? n)%nat && (n <=? 57)%nat then Some (Z.of_nat (n - 48)) else None.

(** Reading back the five characters of [minutes_to_HHMM]: an hour of one
    or two digits, padded with a space, a colon, and two digits of minutes *)
Definition HHMM_to_minutes (s : string) : option Z :=
  match s with
  | String h1 (String h2 (String c (String m1 (String m2 EmptyString)))) =>
      if Ascii.eqb c ":" then
        match (if Ascii.eqb h1 " " then Some 0%Z else digit_value h1),
              digit_value h2, digit_value m1, digit_value m2 with
        | Some a, Some b, Some x, Some y => Some ((a * 10 + b) * 60 + x * 10 + y)%Z
        | _, _, _, _ => None
        end
      else None
  | _ => None
  end.

(** ** Weekday names in Czech (lines 169, 278-285) *)

Definition WD_CZ : list string :=
  ["pondělí"; "úterý"; "středa"; "čtvrtek"; "pátek"; "sobota"; "neděle"].

(** [dict(pairs)[k]]: a later pair with the same key replaces an earlier
    one. *)
Fixpoint dict_of_pairs_getitem (k : string) (pairs : list (string * string))
  : result string :=
  match pairs with
  | [] => Raise (KeyError (repr_str k))
  | (k', v) :: pairs' =>
      match dict_of_pairs_getitem k pairs' with
      | Ok v' => Ok v'
      | Raise e => if String.eqb k' k then Ok v else Raise e
      end
  end.

(** [weekday_to_cz] *)
Definition weekday_to_cz (day_name : string) : result string :=
  dict_of_pairs_getitem (lower day_name) (combine WD_EN WD_CZ).

(** [weekday_to_en] *)
Definition weekday_to_en (day_name : string) : result string :=
  dict_of_pairs_getitem (lower day_name) (combine WD_CZ WD_EN).

(** ** Paths (lines 109-116, 165, 301-311) *)

Definition courses_folder : string := "aktuální semestr/".

(** [s.endswith(p)] for a one-character [p] *)
Fixpoint ends_with_char (ch : ascii) (s : string) : bool :=
  match s with
  | EmptyString => false
  | String c EmptyString => Ascii.eqb c ch
  | String _ s' => ends_with_char ch s'
  end.

(** One turn of the loop of [posixpath.join] *)
Definition join_step (path b : string) : string :=
  if startswith b "/" then b
  else if String.eqb path EmptyString || ends_with_char "/" path then path ++ b
  else path ++ "/" ++ b.

(** [os.path.join(a, *p)] *)
Definition os_path_join (a : string) (p : list string) : string :=
  fold_left join_step p a.

(** [Course.path] *)
Definition course_path (self : Course) (ignore_type : bool) : string :=
  match ([courses_folder; (name self ++ " (" ++ abbreviation self ++ ")")%string]
         ++ (if ignore_type then [] else [type self]))%list with
  | [] => EmptyString
  | a :: p => os_path_join a p
  end.

(** An index of a slice, brought into [0 .. n] *)
Definition slice_index (n i : Z) : Z :=
  if (i <? 0)%Z then Z.max (i + n) 0 else Z.min i n.

(** [s[start:stop]]; [None] is a bound left out *)
Definition slice (s : string) (start stop : option Z) : string :=
  let n := Z.of_nat (String.length s) in
  let lo := match start with None => 0%Z | Some i => slice_index n i end in
  let hi := match stop with None => n | Some i => slice_index n i end in
  substring (Z.to_nat lo) (Z.to_nat (hi - lo)) s.

(** [s.index(ch)] for a one-character [ch] *)
Fixpoint str_index (ch : ascii) (s : string) : result Z :=
  match s with
  | EmptyString => Raise ValueError
  | String c s' =>
      if Ascii.eqb c ch then Ok 0%Z
      else i <- str_index ch s' ;; Ok (1 + i)%Z
  end.

(** [s.rfind(ch)] for a one-character [ch]: [-1] when there is none *)
Fixpoint str_rfind (ch : ascii) (s : string) : Z :=
  match s with
  | EmptyString => (-1)%Z
  | String c s' =>
      let r := str_rfind ch s' in
      if (0 <=? r)%Z then (1 + r)%Z
      else if Ascii.eqb c ch then 0%Z else (-1)%Z
  end.

(** The entries [name], [type] and [abbreviation] cut out of the path of
    a definition file (lines 301-311) *)
Definition names_of_path (p : string) : result (string * string * string) :=
  let shortened_path := slice p (Some (Z.of_nat (String.length courses_folder))) None in
  i <- str_index "/" shortened_path ;;
  let course_name := slice shortened_path None (Some i) in
  let course_abbreviation :=
    slice (slice course_name (Some (str_rfind " " course_name)) None)
      (Some 2%Z) (Some (-1)%Z) in
  let shortened_path' :=
    slice shortened_path (Some (Z.of_nat (String.length course_name) + 1)%Z) None in
  j <- str_index "/" shortened_path' ;;
  let course_type := slice shortened_path' None (Some j) in
  Ok (slice course_name None (Some (str_rfind " " course_name)),
      course_type, course_abbreviation).

(** The body of the loop over the files, from the path on (lines 297-319) *)
Definition load_path (union_name : result string) (include_unscheduled : bool)
    (p : string) (document : result value) : result (option value) :=
  match names_of_path p with
  | Raise e => Raise (handle p e)
  | Ok (n, t, a) =>
      load_course union_name include_unscheduled
        {| path := p; course_name := n; course_type := t;
           course_abbreviation := a; parsed := document |}
  end.

(** The course a path stands for *)
Definition course_at (n a t : string) : Course :=
  {| name := n; type := t; abbreviation := a; time := None;
     classroom := None; website := None |}.

(** ** What a loaded course looks like *)

(** The strict check lets the value [v] pass under the annotation [ann]. *)
Definition accepts (ann : annotation) (v : value) : bool :=
  match v, ann with
  | VNone, _ => true
  | _, Any => true
  | _, _ => existsb (isinstance v) (alternatives ann)
  end.

(** An instance of [c] whose every field passes the strict check, and
    whose fields annotated with a dataclass hold [None] or again such an
    instance *)
Inductive conforms : cls -> value -> Prop :=
| conforms_obj : forall c kwargs,
    (forall fd, In fd (fields_of c) ->
                accepts (ftype fd) (field_value kwargs fd) = true) ->
    (forall fd k, In fd (fields_of c) ->
                  dataclass_of (ftype fd) = Some k ->
                  field_value kwargs fd = VNone
                  \/ conforms k (field_value kwargs fd)) ->
    conforms c (VObj c (map (fun fd => (fname fd, field_value kwargs fd))
                          (fields_of c))).

(** The object [v] has the attribute [f] with the value [x]. *)
Definition has_attr (v : value) (f : string) (x : value) : Prop :=
  match v with
  | VObj _ attrs => assoc f attrs = Some x
  | _ => False
  end.

(** ** Opening a course (lines 535-553, 610-661) *)

(** The calls of the programs outside *)
Inductive command : Type :=
| open_in_firefox (url : option string)
| open_in_ranger (p : string)
| open_in_xournalpp (p : string).

(** An attribute read off an element of the list of matches, which may be
    [None] *)
Definition attribute_of {X : Type} (course : option Course) (get : Course -> X)
  : result X :=
  match course with
  | None => Raise AttributeError
  | Some c => Ok (get c)
  end.

(** [all([get(courses[i]) == get(courses[i + 1]) for i in range(len(courses) - 1)])] *)
Fixpoint all_adjacent_equal {X : Type} (eqb : X -> X -> bool) (get : Course -> X)
    (courses : list (option Course)) : result bool :=
  match courses with
  | [] => Ok true
  | a :: rest =>
      match rest with
      | [] => Ok true
      | b :: _ =>
          x <- attribute_of a get ;;
          y <- attribute_of b get ;;
          others <- all_adjacent_equal eqb get rest ;;
          Ok (eqb x y && others)
      end
  end.

Definition option_string_eqb (a b : option string) : bool :=
  match a, b with
  | None, None => true
  | Some x, Some y => String.eqb x y
  | _, _ => false
  end.

Section OpenCourse.
Variable unidecode : string -> string.
(** [os.path.isfile] *)
Variable isfile : string -> bool.

(** [open_course]: the program it starts, or [None] when it starts none *)
Definition open_course (today : datetime) (discovered : list Course)
    (kind : string) (argument : option string) : result (option command) :=
  courses <- get_course_from_argument unidecode today discovered argument ;;
  match courses with
  | [] => Raise (SystemExit "No course matching the criteria.")
  | [course] =>
      if String.eqb kind "website" then
        url <- attribute_of course website ;;
        match url with
        | Some _ => Ok (Some (open_in_firefox url))
        | None => Raise (SystemExit "The course has no website.")
        end
      else if String.eqb kind "folder" then
        p <- attribute_of course (fun c => course_path c false) ;;
        Ok (Some (open_in_ranger p))
      else if String.eqb kind "notes" then
        folder <- attribute_of course (fun c => course_path c false) ;;
        let p := os_path_join folder ["notes.xopp"] in
        if negb (isfile p) then Raise (SystemExit "The course has no notes.")
        else Ok (Some (open_in_xournalpp p))
      else Ok None
  | first :: _ =>
      same_folder <-
        (if String.eqb kind "folder"
         then all_adjacent_equal String.eqb abbreviation courses
         else Ok false) ;;
      if same_folder then
        p <- attribute_of first (fun c => course_path c true) ;;
        Ok (Some (open_in_ranger p))
      else
        same_website <-
          (if String.eqb kind "website"
           then all_adjacent_equal option_string_eqb website courses
           else Ok false) ;;
        if same_website then
          url <- attribute_of first website ;;
          Ok (Some (open_in_firefox url))
        else Raise (SystemExit "Multiple courses matching the identifier.")
  end.
End OpenCourse.

(** ** Walking the tree *)

(** The tokens [tokens] lead from [node] along the alias tuples [ds] to the
    callable [f]: each token is not empty and some alias of its tuple starts
    with it. *)
Inductive route {A : Type} : tree A -> list string -> list (list string) -> A -> Prop :=
| route_leaf : forall f description, route (Leaf f description) [] [] f
| route_step : forall items d sub token tokens ds f,
    In (d, sub) items ->
    matches token d = true ->
    token <> EmptyString ->
    route sub tokens ds f ->
    route (Dict items) (token :: tokens) (d :: ds) f.

(** ** The crontab block (lines 248-275, 673-738) *)

Definition newline : string := String (ascii_of_nat 10) EmptyString.

(** The white space of ASCII, as [str.strip] sees it *)
Definition is_space (c : ascii) : bool :=
  let n := nat_of_ascii c in
  ((9 <=? n) && (n <=? 13) || (28 <=? n) && (n <=? 32))%nat.

Fixpoint lstrip (s : string) : string :=
  match s with
  | EmptyString => EmptyString
  | String c s' => if is_space c then lstrip s' else s
  end.

Fixpoint rstrip (s : string) : string :=
  match s with
  | EmptyString => EmptyString
  | String c s' =>
      match rstrip s' with
      | EmptyString => if is_space c then EmptyString else String c EmptyString
      | r => String c r
      end
  end.

(** [s.strip()] *)
Definition strip (s : string) : string := rstrip (lstrip s).

Definition cron_beginning : string :=
  "# BEGINNING: course schedule crons (autogenerated, do not change)".

Definition cron_end : string := "# END: course schedule crons".

(** [str(x)] for an optional string: [None] prints as "None" *)
Definition str_of_option (x : option string) : string :=
  match x with
  | Some s => s
  | None => "None"
  end.

(** [courses[i]] *)
Definition course_at_index (courses : list Course) (i : nat) : result Course :=
  match nth_error courses i with
  | Some c => Ok c
  | None => Raise IndexError
  end.

(** [c.time], for a read of one of its attributes *)
Definition time_of (c : Course) : result Time :=
  match time c with
  | Some t => Ok t
  | None => Raise AttributeError
  end.

(** [get_next_course_message] *)
Definition get_next_course_message (i : nat) (courses : list Course) : result string :=
  course <-
    (if (List.length courses <=? i + 1)%nat then Ok None
     else
       this <- course_at_index courses i ;;
       t <- time_of this ;;
       next <- course_at_index courses (i + 1) ;;
       t' <- time_of next ;;
       if negb (String.eqb (day t) (day t')) then Ok None else Ok (Some next)) ;;
  match course with
  | None => Ok "Dnes již žádný další předmět není."
  | Some course =>
      t' <- time_of course ;;
      this <- course_at_index courses i ;;
      t <- time_of this ;;
      Ok ("Další předmět je <i>" ++ name course ++ " (" ++ type course ++ ")</i>, "
          ++ "který začíná <i>" ++ str_of_int (start t' - end_ t)
          ++ " minut</i> po tomto"
          ++ match classroom course with
             | None => "."
             | Some room =>
                 " v učebně <i>" ++ str_of_option (number room) ++ "</i>"
                 ++ match floor room with
                    | None => "."
                    | Some fl => " (" ++ str_of_int fl ++ ". patro)."
                    end
             end)%string
  end.

(** The line written for one message *)
Definition cron_line (user cron_schedule body : string) : string :=
  cron_schedule ++ " " ++ user ++ " dunstify rozvrh '" ++ body ++ "'" ++ newline.

(** The two lines written for the course at index [j] *)
Definition cron_lines (user : string) (courses : list Course) (j : nat)
    (course : Course) : result (list string) :=
  t <- time_of course ;;
  w <- weekday course ;;
  let before_end := get_cron_schedule (end_ t - 5) w in
  message <- get_next_course_message j courses ;;
  w' <- weekday course ;;
  let at_start := get_cron_schedule (start t) w' in
  Ok [cron_line user before_end message;
      cron_line user at_start
        ("právě začal předmět <i>" ++ name course ++ " (" ++ type course
         ++ ")</i>.")%string].

(** The loop [for j, course in enumerate(courses)], from the index [j] on *)
Fixpoint cron_block_from (user : string) (courses : list Course) (j : nat)
    (todo : list Course) : result (list string) :=
  match todo with
  | [] => Ok []
  | course :: todo' =>
      lines <- cron_lines user courses j course ;;
      rest <- cron_block_from user courses (S j) todo' ;;
      Ok (lines ++ rest)
  end.

Definition cron_block (user : string) (courses : list Course) : result (list string) :=
  cron_block_from user courses 0 courses.

(** The inner loop: from the line of the beginning comment on, the lines
    are passed over up to the line of the end comment; what is left after
    it is returned.  Reading past the last line raises. *)
Fixpoint skip_to_end (contents : list string) : result (list string) :=
  match contents with
  | [] => Raise IndexError
  | line :: rest =>
      if negb (String.eqb (strip line) cron_end) then skip_to_end rest
      else Ok rest
  end.

(** The first loop: the lines written back as they are, and the lines left
    after the old block *)
Fixpoint copy_head (contents : list string) : result (list string * list string) :=
  match contents with
  | [] => Ok ([], [])
  | line :: rest =>
      if String.eqb (strip line) cron_beginning
      then rest' <- skip_to_end contents ;; Ok ([], rest')
      else wr <- copy_head rest ;; Ok (line :: fst wr, snd wr)
  end.

(** [compile_cron_jobs], run as root: the lines of the crontab file after
    it, from the lines [contents] before it *)
Definition compile_cron_jobs (user : string) (discovered : list Course)
    (contents : list string) : result (list string) :=
  courses <- get_sorted_courses discovered false ;;
  wr <- copy_head contents ;;
  block <- cron_block user courses ;;
  Ok (fst wr ++ [(cron_beginning ++ newline)%string] ++ block
      ++ [(cron_end ++ newline)%string] ++ snd wr)%list.

Definition is_beginning (line : string) : bool :=
  String.eqb (strip line) cron_beginning.

Definition is_end (line : string) : bool :=
  String.eqb (strip line) cron_end.

(** * Properties *)

(** ** Orders *)

Lemma ascii_compare_refl : forall a, Ascii.compare a a = Eq.
Proof. intro a. unfold Ascii.compare. apply N.compare_refl. Qed.

Lemma ascii_compare_lt_trans : forall a b c,
    Ascii.compare a b = Lt -> Ascii.compare b c = Lt -> Ascii.compare a c = Lt.
Proof.
  unfold Ascii.compare. intros a b c H1 H2.
  rewrite N.compare_lt_iff in *. lia.
Qed.

(** The case analysis shared by the lexicographic orders: the heads
    compare [Eq] (and are then equal), [Lt] or [Gt]. *)
Ltac lex_heads eq_to_eq refl trans :=
  repeat match goal with
    | H : context [match ?cmp ?x ?y with _ => _ end] |- _ =>
        let E := fresh "E" in
        destruct (cmp x y) eqn:E; try discriminate H;
        try (apply eq_to_eq in E; subst)
    end;
  rewrite ?refl;
  try match goal with
    | H1 : ?cmp ?x ?y = Lt, H2 : ?cmp ?y ?z = Lt |- _ =>
        rewrite (trans _ _ _ H1 H2)
    end;
  repeat match goal with
    | H : ?cmp ?x ?y = Lt |- _ => rewrite H
    end.

Lemma string_compare_refl : forall s, String.compare s s = Eq.
Proof.
  induction s as [|a s IH]; simpl; [reflexivity|].
  rewrite ascii_compare_refl. exact IH.
Qed.

Lemma string_compare_lt_trans : forall a b c,
    String.compare a b = Lt -> String.compare b c = Lt -> String.compare a c = Lt.
Proof.
  induction a as [|x a IH]; intros [|y b] [|z c] H1 H2; simpl in *;
    try discriminate; try reflexivity.
  lex_heads Ascii.compare_eq_iff ascii_compare_refl ascii_compare_lt_trans;
    try reflexivity.
  eapply IH; eassumption.
Qed.

Lemma tuple_compare_refl : forall t, tuple_compare t t = Eq.
Proof.
  induction t as [|s t IH]; simpl; [reflexivity|].
  rewrite string_compare_refl. exact IH.
Qed.

Lemma tuple_compare_eq : forall t1 t2, tuple_compare t1 t2 = Eq -> t1 = t2.
Proof.
  induction t1 as [|s1 t1 IH]; intros [|s2 t2] H; simpl in H;
    try discriminate; [reflexivity|].
  destruct (String.compare s1 s2) eqn:E; try discriminate.
  apply String.compare_eq_iff in E. subst. f_equal. apply IH, H.
Qed.

Lemma tuple_compare_antisym : forall t1 t2,
    tuple_compare t1 t2 = CompOpp (tuple_compare t2 t1).
Proof.
  induction t1 as [|s1 t1 IH]; intros [|s2 t2]; simpl; try reflexivity.
  rewrite (String.compare_antisym s1 s2).
  destruct (String.compare s2 s1); simpl; try reflexivity. apply IH.
Qed.

Lemma tuple_compare_lt_trans : forall a b c,
    tuple_compare a b = Lt -> tuple_compare b c = Lt -> tuple_compare a c = Lt.
Proof.
  induction a as [|x a IH]; intros [|y b] [|z c] H1 H2; simpl in *;
    try discriminate; try reflexivity.
  lex_heads String.compare_eq_iff string_compare_refl string_compare_lt_trans;
    try reflexivity.
  eapply IH; eassumption.
Qed.

Lemma decision_leb_total : forall a b,
    decision_leb a b = true \/ decision_leb b a = true.
Proof.
  intros [n1 t1] [n2 t2]. unfold decision_leb; simpl.
  rewrite (Nat.compare_antisym n1 n2), (tuple_compare_antisym t2 t1).
  destruct (n1 ?= n2)%nat; simpl; auto.
  destruct (tuple_compare t1 t2); simpl; auto.
Qed.

Lemma decision_leb_trans : forall a b c,
    decision_leb a b = true -> decision_leb b c = true -> decision_leb a c = true.
Proof.
  intros [n1 t1] [n2 t2] [n3 t3]. unfold decision_leb; simpl.
  destruct (Nat.compare_spec n1 n2), (Nat.compare_spec n2 n3);
    try discriminate; subst; intros H1 H2.
  - rewrite Nat.compare_refl.
    destruct (tuple_compare t1 t2) eqn:E1; try discriminate;
      destruct (tuple_compare t2 t3) eqn:E2; try discriminate;
      try (apply tuple_compare_eq in E1; subst);
      try (apply tuple_compare_eq in E2; subst);
      rewrite ?tuple_compare_refl, ?E1, ?E2; try reflexivity.
    rewrite (tuple_compare_lt_trans _ _ _ E1 E2). reflexivity.
  - destruct (Nat.compare_spec n2 n3); try lia; reflexivity.
  - destruct (Nat.compare_spec n1 n3); try lia; reflexivity.
  - destruct (Nat.compare_spec n1 n3); try lia; reflexivity.
Qed.

Lemma decision_leb_fst : forall a b, decision_leb a b = true -> (fst a <= fst b)%nat.
Proof.
  intros [n1 t1] [n2 t2]. unfold decision_leb; simpl.
  destruct (Nat.compare_spec n1 n2); intro Hle; try discriminate; lia.
Qed.

Lemma pair_leb_total : forall a b, pair_leb a b = true \/ pair_leb b a = true.
Proof.
  intros [a1 a2] [b1 b2]. unfold pair_leb; simpl.
  destruct (Z.ltb_spec a1 b1), (Z.ltb_spec b1 a1), (Z.eqb_spec a1 b1),
    (Z.eqb_spec b1 a1), (Z.leb_spec a2 b2), (Z.leb_spec b2 a2);
    simpl; auto; lia.
Qed.

Lemma pair_leb_trans : forall a b c,
    pair_leb a b = true -> pair_leb b c = true -> pair_leb a c = true.
Proof.
  intros [a1 a2] [b1 b2] [c1 c2]. unfold pair_leb; simpl.
  destruct (Z.ltb_spec a1 b1), (Z.ltb_spec b1 c1), (Z.ltb_spec a1 c1),
    (Z.eqb_spec a1 b1), (Z.eqb_spec b1 c1), (Z.eqb_spec a1 c1),
    (Z.leb_spec a2 b2), (Z.leb_spec b2 c2), (Z.leb_spec a2 c2);
    simpl; auto; lia.
Qed.

(** ** The stable sort *)

Section StableSortFacts.
Context {K A : Type}.
Variable key : A -> K.
Variable leb : K -> K -> bool.
Hypothesis leb_total : forall a b, leb a b = true \/ leb b a = true.
Hypothesis leb_trans : forall a b c,
    leb a b = true -> leb b c = true -> leb a c = true.

Lemma leb_refl : forall a, leb a a = true.
Proof. intro a. destruct (leb_total a a); assumption. Qed.

Lemma insert_perm : forall x l, Permutation (insert key leb x l) (x :: l).
Proof.
  intros x l. induction l as [|y l IH]; simpl.
  - apply Permutation_refl.
  - destruct (leb (key x) (key y)).
    + apply Permutation_refl.
    + eapply Permutation_trans; [apply perm_skip, IH | apply perm_swap].
Qed.

Lemma sorted_perm : forall l, Permutation (sorted key leb l) l.
Proof.
  induction l as [|x l IH]; simpl.
  - constructor.
  - eapply Permutation_trans; [apply insert_perm | apply perm_skip, IH].
Qed.

Lemma insert_sorted : forall x l,
    StronglySorted (le_key key leb) l -> StronglySorted (le_key key leb) (insert key leb x l).
Proof.
  intros x l Hs. induction Hs as [|y l Hs IH Hall]; simpl.
  - constructor; constructor.
  - destruct (leb (key x) (key y)) eqn:E.
    + constructor.
      * constructor; assumption.
      * constructor; [exact E|].
        eapply Forall_impl; [|exact Hall].
        intros z Hz. unfold le_key in *.
        eapply leb_trans; eassumption.
    + constructor; [exact IH|].
      assert (Hyx : le_key key leb y x).
      { unfold le_key. destruct (leb_total (key x) (key y)); congruence. }
      eapply Permutation_Forall.
      * apply Permutation_sym, insert_perm.
      * constructor; assumption.
Qed.

Lemma sorted_sorted : forall l, StronglySorted (le_key key leb) (sorted key leb l).
Proof.
  induction l as [|x l IH]; simpl.
  - constructor.
  - apply insert_sorted, IH.
Qed.

(** Sorting commutes with filtering: what a filter keeps of the sorted
    list is the sorted list of what it keeps of the input. *)
Lemma insert_filter : forall (p : A -> bool) x l,
    StronglySorted (le_key key leb) l ->
    filter p (insert key leb x l) =
    if p x then insert key leb x (filter p l) else filter p l.
Proof.
  intros p x l Hs. induction Hs as [|y l Hs IH Hall]; simpl.
  - destruct (p x); reflexivity.
  - destruct (leb (key x) (key y)) eqn:E; simpl.
    + destruct (p x) eqn:Px, (p y) eqn:Py; simpl; rewrite ?E; try reflexivity.
      destruct (filter p l) as [|z l'] eqn:F; simpl; [reflexivity|].
      assert (Hz : In z (filter p l)) by (rewrite F; left; reflexivity).
      apply filter_In in Hz. destruct Hz as [Hz _].
      rewrite Forall_forall in Hall. specialize (Hall z Hz).
      unfold le_key in Hall.
      rewrite (leb_trans _ _ _ E Hall). reflexivity.
    + rewrite IH.
      destruct (p x) eqn:Px, (p y) eqn:Py; simpl; rewrite ?E; reflexivity.
Qed.

Lemma sorted_filter : forall (p : A -> bool) l,
    filter p (sorted key leb l) = sorted key leb (filter p l).
Proof.
  intros p. induction l as [|x l IH]; simpl; [reflexivity|].
  rewrite insert_filter by apply sorted_sorted.
  rewrite IH. destruct (p x); reflexivity.
Qed.


(** An element's key is at most the key of every element after it. *)
Lemma sorted_precedes_le : forall l a b,
    StronglySorted (le_key key leb) l -> precedes a b l -> le_key key leb a b.
Proof.
  intros l a b Hs (l1 & l2 & l3 & ->). revert Hs.
  induction l1 as [|x l1 IH]; simpl; intro Hs.
  - inversion Hs as [|? ? _ Hall]; subst.
    rewrite Forall_forall in Hall. apply Hall.
    apply in_or_app. right. left. reflexivity.
  - inversion Hs; subst. apply IH. assumption.
Qed.

(** The last element carries a greatest key. *)
Lemma sorted_last_max : forall l d x,
    StronglySorted (le_key key leb) l -> In x l -> le_key key leb x (last l d).
Proof.
  intros l d x Hs. revert x. induction Hs as [|y l Hs IH Hall]; intros x Hin.
  - destruct Hin.
  - destruct l as [|z l].
    + destruct Hin as [<-|[]]. apply leb_refl.
    + change (last (y :: z :: l) d) with (last (z :: l) d).
      destruct Hin as [<-|Hin].
      * rewrite Forall_forall in Hall.
        unfold le_key. eapply leb_trans.
        -- apply Hall. left. reflexivity.
        -- apply IH. left. reflexivity.
      * apply IH, Hin.
Qed.
End StableSortFacts.

(** ** Lists *)






Lemma StronglySorted_map_In : forall {A B : Type} (R : A -> A -> Prop)
    (R' : B -> B -> Prop) (f : A -> B) l,
    StronglySorted R l ->
    (forall a b, In a l -> In b l -> R a b -> R' (f a) (f b)) ->
    StronglySorted R' (map f l).
Proof.
  intros A B R R' f l Hs. induction Hs as [|y l Hs IH Hall]; intro H; simpl.
  - constructor.
  - constructor.
    + apply IH. intros a b Ha Hb. apply H; right; assumption.
    + rewrite Forall_forall in *. intros z Hz.
      apply in_map_iff in Hz. destruct Hz as (x & <- & Hx).
      apply H; [left; reflexivity | right; exact Hx | apply Hall, Hx].
Qed.

Lemma In_two_precedes : forall {A : Type} (a b : A) l,
    In a l -> In b l -> a <> b -> precedes a b l \/ precedes b a l.
Proof.
  intros A a b l Ha Hb Hab.
  apply in_split in Ha. destruct Ha as (l1 & l2 & ->).
  apply in_app_or in Hb. destruct Hb as [Hb|[Hb|Hb]].
  - right. apply in_split in Hb. destruct Hb as (m1 & m2 & ->).
    exists m1, m2, l2. rewrite <- app_assoc. reflexivity.
  - contradiction.
  - left. apply in_split in Hb. destruct Hb as (m1 & m2 & ->).
    exists l1, m1, m2. reflexivity.
Qed.

Lemma precedes_In : forall {A : Type} (a b : A) l,
    precedes a b l -> In a l /\ In b l.
Proof.
  intros A a b l (l1 & l2 & l3 & ->). split.
  - apply in_or_app. right. left. reflexivity.
  - apply in_or_app. right. right. apply in_or_app. right. left. reflexivity.
Qed.

(** ** The sorted-courses query *)

Lemma mapM_decorate_inv : forall l dl,
    mapM decorate l = Ok dl ->
    map snd dl = l /\ Forall (fun kc => sort_key (snd kc) = Ok (fst kc)) dl.
Proof.
  induction l as [|c l IH]; simpl; intros dl H.
  - injection H as <-. split; constructor.
  - unfold decorate at 1 in H. destruct (sort_key c) as [k|e] eqn:Ek; simpl in H;
      [|discriminate].
    destruct (mapM decorate l) as [dl'|e] eqn:El; simpl in H; [|discriminate].
    injection H as <-. destruct (IH _ eq_refl) as [Hm Hf]. simpl. split.
    + f_equal. exact Hm.
    + constructor; assumption.
Qed.



(** What a returned schedule is made of. *)
Lemma get_sorted_courses_inv : forall discovered inc out,
    get_sorted_courses discovered inc = Ok out ->
    exists dl,
      out = map snd (sorted fst pair_leb dl) /\
      map snd dl = filter (fun c => has_time c || inc) discovered /\
      Forall (fun kc => sort_key (snd kc) = Ok (fst kc)) dl.
Proof.
  intros discovered inc out H. unfold get_sorted_courses in H.
  destruct (mapM decorate _) as [dl|e] eqn:E; simpl in H; [|discriminate].
  injection H as <-. exists dl.
  destruct (mapM_decorate_inv _ _ E) as [Hm Hf]. auto.
Qed.


Lemma get_sorted_courses_perm : forall discovered inc out,
    get_sorted_courses discovered inc = Ok out ->
    Permutation out (filter (fun c => has_time c || inc) discovered).
Proof.
  intros discovered inc out H.
  destruct (get_sorted_courses_inv _ _ _ H) as (dl & -> & Hm & _).
  rewrite <- Hm. apply Permutation_map, sorted_perm.
Qed.

Lemma get_sorted_courses_sorted : forall discovered inc out,
    get_sorted_courses discovered inc = Ok out -> StronglySorted key_le out.
Proof.
  intros discovered inc out H.
  destruct (get_sorted_courses_inv _ _ _ H) as (dl & -> & _ & Hf).
  assert (Hf' : Forall (fun kc => sort_key (snd kc) = Ok (fst kc))
                  (sorted fst pair_leb dl)).
  { eapply Permutation_Forall; [apply Permutation_sym, sorted_perm | exact Hf]. }
  rewrite Forall_forall in Hf'.
  eapply StronglySorted_map_In.
  - apply sorted_sorted; [apply pair_leb_total | apply pair_leb_trans].
  - intros a b Ha Hb Hab. exists (fst a), (fst b).
    repeat split; auto.
Qed.




(** ** Weekday names *)

(** The first six names are found whatever their letter case. *)
Lemma weekday_monday_to_saturday : forall d i,
    (i < 6)%nat -> lower d = nth i canonical_weekdays "" ->
    weekday (on_day d) = Ok (Z.of_nat i).
Proof.
  intros d i Hi Hd. unfold weekday; simpl. rewrite Hd.
  do 6 (destruct i as [|i]; [reflexivity|]). lia.
Qed.

(** C2, at the failing input: the seventh entry of [WD_EN] is misspelt, so
    the day name "sunday", in any letter case, is not found and [weekday]
    raises [ValueError], while the misspelt name is given the index 6. *)
Theorem weekday_sunday_not_found :
  weekday (on_day "sunday") = Raise ValueError /\
  weekday (on_day "Sunday") = Raise ValueError /\
  weekday (on_day "sundnay") = Ok 6%Z /\
  get_sorted_courses [on_day "sunday"] false = Raise ValueError.
Proof. repeat split; reflexivity. Qed.

(** ** Order of the schedule *)

(** C4, as stated, fails: with a Monday 9:00 course discovered before a
    course without a time section, the latter comes out first. *)
Lemma unscheduled_not_after_scheduled :
  exists out,
    get_sorted_courses [monday_9; unscheduled_course] true = Ok out /\
    In monday_9 out /\ In unscheduled_course out /\
    time monday_9 <> None /\ time unscheduled_course = None /\
    ~ precedes monday_9 unscheduled_course out.
Proof.
  exists [unscheduled_course; monday_9].
  repeat split; simpl; auto; try discriminate.
  intros (l1 & l2 & l3 & H).
  destruct l1 as [|x [|y l1]]; simpl in H.
  - discriminate.
  - injection H as _ H. destruct l2; discriminate.
  - injection H as _ _ H. destruct l1; discriminate.
Qed.

(** C4, amended: the key of a course without a time section is [(0, 0)],
    so in the schedule with unscheduled courses included such a course
    comes before every scheduled course whose (weekday index, start time)
    is above [(0, 0)], and never after it. *)
Theorem unscheduled_sorted_first : forall discovered out a u t w,
    get_sorted_courses discovered true = Ok out ->
    In a out -> In u out ->
    time u = None ->
    time a = Some t -> weekday a = Ok w ->
    (0 < w \/ (w = 0 /\ 0 < start t))%Z ->
    precedes u a out /\ ~ precedes a u out.
Proof.
  intros discovered out a u t w H Ha Hu Tu Ta Wa Habove.
  assert (Hs := get_sorted_courses_sorted _ _ _ H).
  assert (Hno : ~ precedes a u out).
  { intro Hp.
    assert (Hle : key_le a u).
    { clear Ha Hu. destruct Hp as (l1 & l2 & l3 & ->).
      clear H. induction l1 as [|x l1 IH]; simpl in Hs.
      - apply StronglySorted_inv in Hs. destruct Hs as [_ Hall].
        rewrite Forall_forall in Hall. apply Hall.
        apply in_or_app. right. left. reflexivity.
      - apply StronglySorted_inv in Hs. apply IH, Hs. }
    destruct Hle as (ka & ku & Ka & Ku & Hle).
    unfold sort_key in Ka, Ku. rewrite Ta, Wa in Ka. rewrite Tu in Ku.
    simpl in Ka. injection Ka as <-. injection Ku as <-.
    unfold pair_leb in Hle; cbn [fst snd] in Hle.
    destruct (Z.ltb_spec w 0), (Z.eqb_spec w 0), (Z.leb_spec (start t) 0);
      cbn [orb andb] in Hle; try discriminate; lia. }
  split; [|exact Hno].
  destruct (In_two_precedes a u out Ha Hu) as [Hp|Hp].
  - intros ->. congruence.
  - contradiction.
  - exact Hp.
Qed.

Lemma unscheduled_sorted_first_witness :
  precedes unscheduled_course monday_9 [unscheduled_course; monday_9] /\
  ~ precedes monday_9 unscheduled_course [unscheduled_course; monday_9].
Proof.
  apply (unscheduled_sorted_first [monday_9; unscheduled_course]
           [unscheduled_course; monday_9] monday_9 unscheduled_course
           {| day := "monday"; start := 540; end_ := 630; weeks := None |} 0%Z).
  - reflexivity.
  - simpl. auto.
  - simpl. auto.
  - reflexivity.
  - reflexivity.
  - reflexivity.
  - right. split; [reflexivity|]. simpl. lia.
Defined.



(** ** The next course *)

Lemma get_sorted_courses_keys : forall discovered inc out,
    get_sorted_courses discovered inc = Ok out ->
    forall c, In c out -> exists k, sort_key c = Ok k.
Proof.
  intros discovered inc out H c Hc.
  destruct (get_sorted_courses_inv _ _ _ H) as (dl & -> & _ & Hf).
  apply in_map_iff in Hc. destruct Hc as (kc & <- & Hkc).
  rewrite Forall_forall in Hf. exists (fst kc). apply Hf.
  eapply Permutation_in; [apply (sorted_perm fst pair_leb) | exact Hkc].
Qed.

(** Every course of the schedule without unscheduled courses has a time
    section and a weekday index. *)
Lemma scheduled_courses_timed : forall discovered out,
    get_sorted_courses discovered false = Ok out ->
    forall c, In c out -> exists t w, time c = Some t /\ weekday c = Ok w.
Proof.
  intros discovered out H c Hc.
  destruct (get_sorted_courses_keys _ _ _ H c Hc) as [k Hk].
  apply (Permutation_in _ (get_sorted_courses_perm _ _ _ H)) in Hc.
  apply filter_In in Hc. destruct Hc as [_ Ht].
  rewrite orb_false_r in Ht. unfold has_time in Ht. unfold sort_key in Hk.
  destruct (time c) as [t|]; [|discriminate].
  destruct (weekday c) as [w|]; [|discriminate].
  exists t, w. split; reflexivity.
Qed.







(** The scenario of C3 run on the code: at Monday 08:30 the course that
    started at 08:29 is 10079 minutes ahead and the 09:00 course 30 minutes
    ahead; the query picks the latter although it is second in the
    schedule. *)
Example next_course_scenario :
  time_to_course monday_0830 monday_0829 = Ok 10079%Z /\
  time_to_course monday_0830 monday_9 = Ok 30%Z /\
  get_sorted_courses [monday_0829; monday_9] false = Ok [monday_0829; monday_9] /\
  next_course monday_0830 [monday_0829; monday_9] = Ok [Some monday_9].
Proof. repeat split; reflexivity. Qed.

(** ** The ongoing course and the special identifiers *)






(** C10: when no course is scheduled the next-course query returns the
    one-element list holding [None]; so does the identifier query for the
    tokens "n" and "next" and for the absent token; and [list_attribute],
    which only looks at the length of that list, takes the single element
    [None] as its course instead of leaving with "No course matching the
    criteria." *)
Theorem next_course_without_schedule : forall unidecode today discovered,
    (forall c, In c discovered -> has_time c = false) ->
    get_sorted_courses discovered false = Ok [] /\
    next_course today discovered = Ok [None] /\
    get_course_from_argument unidecode today discovered (Some "n") = Ok [None] /\
    get_course_from_argument unidecode today discovered (Some "next") = Ok [None] /\
    get_course_from_argument unidecode today discovered None = Ok [None] /\
    List.length [@None Course] = 1%nat /\
    list_attribute unidecode today discovered None = Ok None /\
    list_attribute unidecode today discovered (Some "next") = Ok None.
Proof.
  intros unidecode today discovered H.
  assert (Hs : get_sorted_courses discovered false = Ok []).
  { unfold get_sorted_courses.
    replace (filter (fun c => has_time c || false) discovered) with (@nil Course).
    - reflexivity.
    - symmetry. induction discovered as [|c l IH]; simpl; [reflexivity|].
      rewrite (H c (or_introl eq_refl)). simpl. apply IH.
      intros; apply H; right; assumption. }
  assert (Hn : next_course today discovered = Ok [None]).
  { unfold next_course. rewrite Hs. reflexivity. }
  assert (Ha : get_course_from_argument unidecode today discovered None = Ok [None]).
  { unfold get_course_from_argument, get_ongoing_course. rewrite Hs. simpl.
    exact Hn. }
  repeat split; try assumption.
  - unfold list_attribute. rewrite Ha. reflexivity.
  - unfold list_attribute. simpl. unfold get_course_from_string. simpl.
    rewrite Hn. reflexivity.
Qed.

Lemma next_course_without_schedule_witness :
  get_sorted_courses [unscheduled_course] false = Ok [] /\
  next_course monday_0830 [unscheduled_course] = Ok [None] /\
  get_course_from_argument (fun s => s) monday_0830 [unscheduled_course] (Some "n")
  = Ok [None] /\
  get_course_from_argument (fun s => s) monday_0830 [unscheduled_course] (Some "next")
  = Ok [None] /\
  get_course_from_argument (fun s => s) monday_0830 [unscheduled_course] None
  = Ok [None] /\
  List.length [@None Course] = 1%nat /\
  list_attribute (fun s => s) monday_0830 [unscheduled_course] None = Ok None /\
  list_attribute (fun s => s) monday_0830 [unscheduled_course] (Some "next") = Ok None.
Proof.
  apply (next_course_without_schedule (fun s => s) monday_0830 [unscheduled_course]).
  intros c [<-|[]]. reflexivity.
Defined.

(** ** Matching by identifier *)

Lemma contains_app : forall ch a b,
    contains ch (a ++ b)%string = contains ch a || contains ch b.
Proof.
  intros ch a b. induction a as [|x a IH]; simpl; [reflexivity|].
  rewrite IH. apply orb_assoc.
Qed.









(** The identifier is lower-cased as a whole and the first character of
    the type is compared as it stands: a type written with a capital is
    outside the amended statement below. *)
Example capital_type_letter :
  get_course_from_argument (fun s => s) monday_0830 [titled]
    (Some (own_identifier titled "P")) = Ok [].
Proof. reflexivity. Qed.



(** ** The dispatcher *)

Lemma fold_left_max_two_valued : forall {X : Type} (m : X -> bool) n l acc,
    acc = 0%nat \/ acc = n ->
    fold_left Nat.max (map (fun s => if m s then n else 0%nat) l) acc
    = if existsb m l then n else acc.
Proof.
  intros X m n l. induction l as [|s l IH]; intros acc Hacc; simpl.
  - reflexivity.
  - destruct (m s); simpl.
    + rewrite IH by (right; destruct Hacc; subst; lia).
      replace (Nat.max acc n) with n by (destruct Hacc; subst; lia).
      destruct (existsb m l); reflexivity.
    + rewrite Nat.max_0_r. apply IH, Hacc.
Qed.

Lemma score_value : forall argument d,
    d <> [] -> score argument d = Ok (token_length_score argument d).
Proof.
  intros argument [|s d] Hd; [contradiction|].
  unfold score, token_length_score, matches. simpl.
  rewrite (fold_left_max_two_valued (fun s => startswith s argument)).
  - destruct (startswith s argument); simpl; [|reflexivity].
    destruct (existsb _ d); reflexivity.
  - destruct (startswith s argument); auto.
Qed.

Lemma mapM_score_item : forall {A : Type} argument (items : list (list string * tree A)),
    (forall d sub, In (d, sub) items -> d <> []) ->
    mapM (score_item argument) items
    = Ok (map (fun item => (token_length_score argument (fst item), fst item)) items).
Proof.
  intros A argument items. induction items as [|[d sub] items IH]; intro H; simpl.
  - reflexivity.
  - unfold score_item at 1. simpl.
    rewrite (score_value argument d) by (apply (H d sub); left; reflexivity).
    simpl. rewrite IH by (intros d' sub' Hin; apply (H d' sub'); right; exact Hin).
    reflexivity.
Qed.

Lemma filter_map_comm : forall {X Y : Type} (g : X -> Y) (p : Y -> bool) l,
    filter p (map g l) = map g (filter (fun x => p (g x)) l).
Proof.
  intros X Y g p l. induction l as [|x l IH]; simpl; [reflexivity|].
  destruct (p (g x)); simpl; rewrite IH; reflexivity.
Qed.

Lemma getitem_candidate : forall {A : Type} argument
    (items : list (list string * tree A)) d sub,
    candidates argument items = [(d, sub)] -> getitem d items = Some sub.
Proof.
  intros A argument items d sub. unfold candidates.
  induction items as [|[d' sub'] items IH]; simpl; intro H; [discriminate|].
  assert (Hd : (0 <? token_length_score argument d)%nat = true).
  { assert (Hin : In (d, sub) [(d, sub)]) by (left; reflexivity).
    rewrite <- H in Hin.
    destruct (0 <? token_length_score argument d')%nat eqn:E.
    - destruct Hin as [Heq|Hin]; [injection Heq as -> _; exact E|].
      apply filter_In in Hin. apply Hin.
    - apply filter_In in Hin. apply Hin. }
  destruct (list_eq_dec string_dec d' d) as [->|Hne].
  - rewrite Hd in H. injection H as -> _. reflexivity.
  - destruct (0 <? token_length_score argument d')%nat.
    + injection H as Heq _. contradiction.
    + apply IH, H.
Qed.

Lemma token_length_score_cases : forall argument d,
    token_length_score argument d = 0%nat
    \/ token_length_score argument d = String.length argument.
Proof.
  intros argument d. unfold token_length_score. destruct (matches argument d); auto.
Qed.

(** C1, as stated, fails: the score is not the length of the alias.  At
    the root, the token "c" is a prefix of "compile", "config" and "check";
    by alias length "compile" alone would hold the maximum, 7, but the
    code scores all three 1 and reports an ambiguity. *)
Lemma alias_length_not_the_score :
  alias_length_score "c" ["compile"] = 7%nat /\
  (forall d, In d (map fst (children decision_tree)) -> d <> ["compile"] ->
             (alias_length_score "c" d < 7)%nat) /\
  score "c" ["compile"] = Ok 1%nat /\
  descend "c" (children decision_tree)
  = Raise (SystemExit "ERROR: Ambiguous decisions for 'c': {check, compile, config}").
Proof.
  split; [reflexivity|]. split; [|split; reflexivity].
  intros d Hd Hne. simpl in Hd.
  destruct Hd as [<-|[<-|[<-|[<-|[<-|[]]]]]]; try (vm_compute; lia).
  contradiction.
Qed.

(** C1, amended: at a [dict] node with at least one item and no empty
    alias tuple, each item is scored the length of the token when one of
    its aliases starts with the token, else 0.  When every item scores 0
    the walk ends with the unmatched-token message; when exactly one item
    scores above 0 the walk goes down into it; when more than one does it
    ends with the ambiguous-token message, which lists their alias tuples
    in the order of tuples. *)
Theorem descend_spec : forall (A : Type) argument (items : list (list string * tree A)),
    items <> [] ->
    (forall d sub, In (d, sub) items -> d <> []) ->
    (forall d sub, In (d, sub) items ->
       score argument d = Ok (token_length_score argument d)) /\
    (candidates argument items = [] ->
       descend argument items
       = Raise (SystemExit (unmatched_message argument (map fst items)))) /\
    (forall d sub, candidates argument items = [(d, sub)] ->
       descend argument items = Ok (d, sub)) /\
    ((1 < List.length (candidates argument items))%nat ->
       descend argument items
       = Raise (SystemExit
                  (ambiguous_message argument
                     (map snd
                        (sorted (fun x => x) decision_leb
                           (map (fun item => (String.length argument, fst item))
                              (candidates argument items))))))).
Proof.
  intros A argument items Hne Hd.
  split.
  { intros d sub Hin. apply score_value. apply (Hd d sub Hin). }
  set (g := fun item : list string * tree A =>
              (token_length_score argument (fst item), fst item)).
  set (n := String.length argument).
  assert (Hdesc : descend argument items =
    let decisions := sorted (fun x => x) decision_leb (map g items) in
    match decisions with
    | [] => Raise IndexError
    | _ :: _ =>
        let best := fst (last decisions (0%nat, [])) in
        if (best =? 0)%nat
        then Raise (SystemExit (unmatched_message argument (map fst items)))
        else
          let decisions' := filter (fun x => (fst x =? best)%nat) decisions in
          if (1 <? List.length decisions')%nat
          then Raise (SystemExit (ambiguous_message argument (map snd decisions')))
          else
            match decisions' with
            | [] => Raise IndexError
            | (_, d) :: _ =>
                match getitem d items with
                | Some sub => Ok (d, sub)
                | None => Raise (KeyError (join ", " d))
                end
            end
    end).
  { unfold descend. rewrite (mapM_score_item argument items Hd). reflexivity. }
  rewrite Hdesc. clear Hdesc. cbv zeta.
  set (decisions := sorted (fun x => x) decision_leb (map g items)).
  assert (Hperm : Permutation decisions (map g items)) by apply sorted_perm.
  assert (Hsorted : StronglySorted (le_key (fun x => x) decision_leb) decisions)
    by (apply sorted_sorted; [apply decision_leb_total | apply decision_leb_trans]).
  destruct decisions as [|x0 rest] eqn:Edec.
  { apply Permutation_nil in Hperm. destruct items; [contradiction|discriminate]. }
  rewrite <- Edec in *.
  set (best := fst (last decisions (0%nat, []))).
  assert (Hlast : In (last decisions (0%nat, [])) decisions).
  { rewrite Edec. clear. revert x0. induction rest as [|y rest IH]; intro x0.
    - left. reflexivity.
    - right. apply IH. }
  assert (Hbest_cases : best = 0%nat \/ best = n).
  { apply (Permutation_in _ Hperm) in Hlast.
    apply in_map_iff in Hlast. destruct Hlast as (item & Hitem & _).
    unfold best. rewrite <- Hitem. apply token_length_score_cases. }
  assert (Hmax : forall item, In item items ->
                              (token_length_score argument (fst item) <= best)%nat).
  { intros item Hin.
    assert (Hg : In (g item) decisions).
    { apply (Permutation_in _ (Permutation_sym Hperm)). apply in_map. exact Hin. }
    apply (decision_leb_fst (g item) (last decisions (0%nat, []))).
    apply (sorted_last_max (fun x => x) decision_leb
             decision_leb_total decision_leb_trans decisions (0%nat, []) (g item)
             Hsorted Hg). }
  assert (Hcand : forall item, In item (candidates argument items) ->
                               In item items /\
                               token_length_score argument (fst item) = n /\
                               (0 < n)%nat).
  { intros item Hin. apply filter_In in Hin. destruct Hin as [Hin Hpos].
    apply Nat.ltb_lt in Hpos. split; [exact Hin|].
    destruct (token_length_score_cases argument (fst item)) as [E|E];
      fold n in E; lia. }
  assert (Hfilter : (0 < best)%nat ->
            filter (fun x => (fst x =? best)%nat) decisions
            = sorted (fun x => x) decision_leb
                (map (fun item => (n, fst item)) (candidates argument items))).
  { intro Hpos. assert (Hbn : best = n) by lia.
    unfold decisions at 1.
    rewrite (sorted_filter (fun x => x) decision_leb
               decision_leb_total decision_leb_trans).
    f_equal. rewrite filter_map_comm. unfold candidates.
    transitivity (map g (filter (fun item =>
                    (0 <? token_length_score argument (fst item))%nat) items)).
    - f_equal. apply filter_ext. intro item. unfold g. simpl.
      destruct (token_length_score_cases argument (fst item)) as [E|E];
        fold n in E; rewrite E, Hbn.
      + destruct (Nat.eqb_spec 0 n); [lia | reflexivity].
      + rewrite Nat.eqb_refl. symmetry. apply Nat.ltb_lt. lia.
    - apply map_ext_in. intros item Hin. unfold g.
      destruct (Hcand item Hin) as (_ & -> & _). reflexivity. }
  split; [|split].
  - (* no candidate *)
    intro Hnone.
    assert (Hzero : best = 0%nat).
    { apply (Permutation_in _ Hperm) in Hlast.
      apply in_map_iff in Hlast. destruct Hlast as (item & Hitem & Hin).
      unfold best. rewrite <- Hitem. simpl.
      destruct (Nat.eq_dec (token_length_score argument (fst item)) 0) as [E|E];
        [exact E|].
      assert (Hc : In item (candidates argument items)).
      { apply filter_In. split; [exact Hin|]. apply Nat.ltb_lt. lia. }
      rewrite Hnone in Hc. destruct Hc. }
    rewrite Edec. rewrite <- Edec. fold best. rewrite Hzero. reflexivity.
  - (* one candidate *)
    intros d sub Hone.
    assert (Hin : In (d, sub) (candidates argument items))
      by (rewrite Hone; left; reflexivity).
    destruct (Hcand _ Hin) as (Hin' & Hsc & Hn).
    assert (Hpos : (0 < best)%nat) by (specialize (Hmax _ Hin'); lia).
    rewrite Edec. rewrite <- Edec. fold best.
    destruct (Nat.eqb_spec best 0); [lia|].
    rewrite (Hfilter Hpos), Hone. simpl.
    rewrite (getitem_candidate argument items d sub Hone). reflexivity.
  - (* several candidates *)
    intro Hmany.
    destruct (candidates argument items) as [|item cs] eqn:Ec; [simpl in Hmany; lia|].
    assert (Hin : In item (item :: cs)) by (left; reflexivity).
    destruct (Hcand _ Hin) as (Hin' & Hsc & Hn).
    assert (Hpos : (0 < best)%nat) by (specialize (Hmax _ Hin'); lia).
    rewrite Edec. rewrite <- Edec. fold best.
    destruct (Nat.eqb_spec best 0); [lia|].
    rewrite (Hfilter Hpos).
    set (tied := sorted (fun x => x) decision_leb
                   (map (fun it => (n, fst it)) (item :: cs))).
    assert (Hlen : List.length tied = List.length (item :: cs)).
    { unfold tied. rewrite (Permutation_length (sorted_perm _ _ _)).
      apply length_map. }
    destruct (Nat.ltb_spec 1 (List.length tied)); [reflexivity|].
    rewrite Hlen in *. lia.
Qed.

Lemma descend_spec_witness :
  (forall d sub, In (d, sub) (children decision_tree) ->
     score "li" d = Ok (token_length_score "li" d)) /\
  (candidates "li" (children decision_tree) = [] ->
     descend "li" (children decision_tree)
     = Raise (SystemExit (unmatched_message "li"
                            (map fst (children decision_tree))))) /\
  (forall d sub, candidates "li" (children decision_tree) = [(d, sub)] ->
     descend "li" (children decision_tree) = Ok (d, sub)) /\
  ((1 < List.length (candidates "li" (children decision_tree)))%nat ->
     descend "li" (children decision_tree)
     = Raise (SystemExit
                (ambiguous_message "li"
                   (map snd
                      (sorted (fun x => x) decision_leb
                         (map (fun item => (String.length "li", fst item))
                            (candidates "li" (children decision_tree)))))))).
Proof.
  apply (descend_spec action "li" (children decision_tree)).
  - discriminate.
  - intros d sub Hin. simpl in Hin.
    destruct Hin as [H|[H|[H|[H|[H|[]]]]]]; injection H as <- _; discriminate.
Defined.

(** ** The strict check *)

Lemma existsb_false : forall {X : Type} (p : X -> bool) l,
    existsb p l = false <-> forall x, In x l -> p x = false.
Proof.
  intros X p l. induction l as [|y l IH]; simpl.
  - split; [intros _ x [] | reflexivity].
  - rewrite orb_false_iff, IH. split.
    + intros [Hy Hl] x [<-|Hx]; auto.
    + intro H. split; [apply H; left; reflexivity | intros; apply H; right; assumption].
Qed.

Lemma check_field_None : forall union_name c fd,
    check_field union_name c fd VNone = Ok tt.
Proof. reflexivity. Qed.

Lemma post_init_check_all : forall union_name c kwargs,
    post_init union_name c
      (map (fun fd => (fname fd, field_value kwargs fd)) (fields_of c))
    = check_all union_name c (fields_of c) kwargs.
Proof. intros union_name c kwargs. destruct c; reflexivity. Qed.

Lemma check_all_ok : forall union_name c fds kwargs,
    check_all union_name c fds kwargs = Ok tt <->
    forall fd, In fd fds ->
               check_field union_name c fd (field_value kwargs fd) = Ok tt.
Proof.
  intros union_name c fds kwargs. induction fds as [|fd fds IH]; simpl.
  - split; [intros _ fd [] | reflexivity].
  - destruct (check_field union_name c fd (field_value kwargs fd)) as [[]|e] eqn:E;
      simpl.
    + rewrite IH. split.
      * intros H fd' [<-|Hin]; [exact E | apply H, Hin].
      * intros H fd' Hin. apply H. right. exact Hin.
    + split; [discriminate|]. intro H.
      specialize (H fd (or_introl eq_refl)). congruence.
Qed.

Lemma check_all_raises : forall union_name c fds kwargs fd e,
    In fd fds ->
    check_field union_name c fd (field_value kwargs fd) = Raise e ->
    exists e', check_all union_name c fds kwargs = Raise e'.
Proof.
  intros union_name c fds kwargs fd e Hin He.
  destruct (check_all union_name c fds kwargs) as [[]|e'] eqn:E.
  - rewrite check_all_ok in E. rewrite (E fd Hin) in He. discriminate.
  - exists e'. reflexivity.
Qed.

Lemma assoc_filter_other : forall {V : Type} f g (l : list (string * V)),
    String.eqb f g = false ->
    assoc g (filter (fun kv => negb (String.eqb (fst kv) f)) l) = assoc g l.
Proof.
  intros V f g l Hfg. induction l as [|[k v] l IH]; simpl; [reflexivity|].
  destruct (String.eqb_spec k f) as [->|Hk]; simpl.
  - rewrite Hfg. exact IH.
  - rewrite IH. reflexivity.
Qed.

Lemma field_value_with_field : forall f v kwargs fd,
    field_value (with_field f v kwargs) fd
    = if String.eqb f (fname fd) then v else field_value kwargs fd.
Proof.
  intros f v kwargs fd. unfold field_value, with_field. simpl.
  destruct (String.eqb f (fname fd)) eqn:E; [reflexivity|].
  rewrite assoc_filter_other by exact E. reflexivity.
Qed.

Lemma has_key_with_field : forall f v (kwargs : list (string * value)) g,
    has_key g kwargs = true -> has_key g (with_field f v kwargs) = true.
Proof.
  intros f v kwargs g H. unfold has_key, with_field in *. simpl.
  destruct (String.eqb f g) eqn:E; [reflexivity|].
  rewrite assoc_filter_other by exact E. exact H.
Qed.

Lemma has_key_fieldtype : forall c f,
    fieldtype c f <> None ->
    has_key f (map (fun fd => (fname fd, tt)) (fields_of c)) = true.
Proof.
  intros c f. unfold fieldtype, has_key.
  induction (fields_of c) as [|fd fds IH]; cbn [map assoc]; intro H.
  - contradiction.
  - destruct (String.eqb (fname fd) f); [reflexivity | apply IH, H].
Qed.

(** C9: the strict check passes every field whose value is [None],
    whatever the class, the field and its annotation; so each of the five
    classes is built with all its fields [None], required ones included,
    and whenever a call of a class succeeds, the same call with any one
    field given as [None] succeeds as well. *)
Theorem strict_accepts_None : forall union_name,
    (forall c fd, check_field union_name c fd VNone = Ok tt) /\
    (forall c,
        construct union_name c (map (fun fd => (fname fd, VNone)) (fields_of c))
        = Ok (VObj c (map (fun fd => (fname fd, VNone)) (fields_of c)))) /\
    (forall c kwargs f o,
        construct union_name c kwargs = Ok o ->
        fieldtype c f <> None ->
        construct union_name c (with_field f VNone kwargs)
        = Ok (VObj c (map (fun fd => (fname fd,
                                      if String.eqb f (fname fd) then VNone
                                      else field_value kwargs fd))
                        (fields_of c)))).
Proof.
  intro union_name. split; [|split].
  - intros c fd. apply check_field_None.
  - intro c. destruct c; reflexivity.
  - intros c kwargs f o Hok Hf.
    unfold construct in *.
    destruct (existsb _ kwargs) eqn:E1; [discriminate|].
    destruct (existsb _ (fields_of c)) eqn:E2; [discriminate|].
    change (map (fun fd => (fname fd, match assoc (fname fd) kwargs with
                                      | Some v => v
                                      | None => VNone
                                      end)) (fields_of c))
      with (map (fun fd => (fname fd, field_value kwargs fd)) (fields_of c)) in Hok.
    rewrite post_init_check_all in Hok.
    destruct (check_all union_name c (fields_of c) kwargs) as [[]|e] eqn:E3;
      [|discriminate].
    rewrite existsb_false in E1. rewrite existsb_false in E2.
    rewrite check_all_ok in E3.
    assert (E1' : existsb
              (fun kv => negb (has_key (fst kv)
                                 (map (fun fd => (fname fd, tt)) (fields_of c))))
              (with_field f VNone kwargs) = false).
    { apply existsb_false. intros kv [<-|Hin].
      - cbn [fst]. rewrite (has_key_fieldtype c f Hf). reflexivity.
      - apply filter_In in Hin. apply E1, Hin. }
    assert (E2' : existsb
              (fun fd => required fd
                         && negb (has_key (fname fd) (with_field f VNone kwargs)))
              (fields_of c) = false).
    { apply existsb_false. intros fd Hin. specialize (E2 fd Hin).
      destruct (required fd); [|reflexivity]. simpl in *.
      apply negb_false_iff in E2. rewrite (has_key_with_field _ _ _ _ E2).
      reflexivity. }
    rewrite E1', E2'.
    change (map (fun fd => (fname fd,
                            match assoc (fname fd) (with_field f VNone kwargs) with
                            | Some v => v
                            | None => VNone
                            end)) (fields_of c))
      with (map (fun fd => (fname fd, field_value (with_field f VNone kwargs) fd))
              (fields_of c)).
    rewrite post_init_check_all.
    assert (E3' : check_all union_name c (fields_of c) (with_field f VNone kwargs)
                  = Ok tt).
    { apply check_all_ok. intros fd Hin. rewrite field_value_with_field.
      destruct (String.eqb f (fname fd)); [reflexivity | apply E3, Hin]. }
    rewrite E3'. simpl. do 2 f_equal. apply map_ext.
    intro fd. rewrite field_value_with_field. reflexivity.
Qed.

Lemma strict_accepts_None_witness :
  construct (Ok "Union") CTime
    (with_field "day" VNone
       [("day", VStr "monday"); ("start", VInt 540); ("end", VInt 630)])
  = Ok (VObj CTime
          [("day", VNone); ("start", VInt 540); ("end", VInt 630); ("weeks", VNone)]).
Proof.
  destruct (strict_accepts_None (Ok "Union")) as (_ & _ & Hset).
  apply (Hset CTime [("day", VStr "monday"); ("start", VInt 540); ("end", VInt 630)]
           "day"
           (VObj CTime [("day", VStr "monday"); ("start", VInt 540);
                        ("end", VInt 630); ("weeks", VNone)])).
  - reflexivity.
  - discriminate.
Defined.

(** The required fields of C9 run on the loader: a [time] section whose
    [day], [start] and [end] are all null is loaded. *)
Example null_time_is_loaded :
  load_course (Ok "Union") false
    (file_of "LA/lecture/info.yaml"
       (VDict [(KStr "time",
                VDict [(KStr "day", VNone); (KStr "start", VNone);
                       (KStr "end", VNone)])]))
  = Ok (Some
          (VObj CCourse
             [("name", VStr "Linear Algebra"); ("type", VStr "lecture");
              ("abbreviation", VStr "LA"); ("teacher", VNone);
              ("time", VObj CTime [("day", VNone); ("start", VNone);
                                   ("end", VNone); ("weeks", VNone)]);
              ("classroom", VNone); ("website", VNone); ("finals", VNone);
              ("other", VNone)])).
Proof. reflexivity. Qed.

(** ** The loader *)

Lemma from_dictionary_plain : forall union_name ann v,
    dataclass_of ann = None -> from_dictionary union_name ann v = Ok v.
Proof.
  intros union_name ann v H. destruct v; simpl; rewrite H; reflexivity.
Qed.

Lemma from_dictionary_dict : forall union_name k items,
    from_dictionary union_name (Plain (Tclass k)) (VDict items)
    = (kwargs <- convert_items union_name k items ;; construct union_name k kwargs).
Proof.
  intros union_name k items. cbn [from_dictionary dataclass_of].
  match goal with
  | |- bind ?X _ = bind ?Y _ => replace X with Y; [reflexivity|]
  end.
  induction items as [|[[f|r] v] items IH]; [reflexivity| |reflexivity].
  cbn [convert_items]. destruct (fieldtype k f); [|reflexivity].
  rewrite IH. reflexivity.
Qed.

(** Induction on a value through the items of a mapping *)
Section ValueInduction.
Variable P : value -> Prop.
Hypothesis P_dict : forall items,
    Forall (fun kv => P (snd kv)) items -> P (VDict items).
Hypothesis P_other : forall v, (forall items, v <> VDict items) -> P v.

Lemma value_dict_ind : forall v, P v.
Proof.
  fix IH 1. intros [ | | | | | |items| | | ];
    try (apply P_other; discriminate).
  apply P_dict. induction items as [|[k x] items IHitems]; constructor.
  - apply IH.
  - exact IHitems.
Qed.
End ValueInduction.

Lemma dataclass_of_some : forall ann k,
    dataclass_of ann = Some k -> ann = Plain (Tclass k).
Proof.
  intros [|t|ts] k H; try discriminate.
  destruct t; try discriminate. injection H as <-. reflexivity.
Qed.

Lemma check_field_caught : forall s c fd v e,
    check_field (Ok s) c fd v = Raise e -> caught e.
Proof.
  intros s c fd v e H. unfold check_field in H.
  destruct v, (ftype fd); try discriminate;
    cbn [annotation_name bind] in H;
    match type of H with
    | (if ?b then _ else _) = _ => destruct b; [discriminate|]
    end;
    injection H as <-; exact I.
Qed.

Lemma check_fields_caught : forall s c fds attrs e,
    check_fields (Ok s) c fds attrs = Raise e -> caught e.
Proof.
  intros s c fds attrs e. induction fds as [|fd fds IH]; simpl; intro H.
  - discriminate.
  - destruct (assoc (fname fd) attrs) as [v|].
    + destruct (check_field (Ok s) c fd v) as [[]|e'] eqn:E; simpl in H.
      * apply IH, H.
      * injection H as <-. eapply check_field_caught; eassumption.
    + injection H as <-. exact I.
Qed.

Lemma construct_caught : forall s c kwargs e,
    construct (Ok s) c kwargs = Raise e -> caught e.
Proof.
  intros s c kwargs e H. unfold construct in H.
  destruct (existsb _ kwargs); [injection H as <-; exact I|].
  destruct (existsb _ (fields_of c)); [injection H as <-; exact I|].
  unfold post_init in H.
  match type of H with
  | bind ?X _ = _ => destruct X as [[]|e'] eqn:E; simpl in H
  end.
  - discriminate.
  - injection H as <-. eapply check_fields_caught; eassumption.
Qed.

Lemma from_dictionary_caught : forall s d ann e,
    from_dictionary (Ok s) ann d = Raise e -> caught e.
Proof.
  intros s d. induction d as [items IH|v Hv] using value_dict_ind; intros ann e H.
  - destruct (dataclass_of ann) as [k|] eqn:Ek.
    2:{ rewrite from_dictionary_plain in H by exact Ek. discriminate. }
    apply dataclass_of_some in Ek. subst ann.
    rewrite from_dictionary_dict in H.
    destruct (convert_items (Ok s) k items) as [kwargs|e'] eqn:Ec; simpl in H.
    + eapply construct_caught; eassumption.
    + injection H as <-. clear -IH Ec. revert e' Ec.
      induction IH as [|[[f|r] x] items Hx _ IHitems]; intros e' Ec; simpl in Ec.
      * discriminate.
      * destruct (fieldtype k f) as [ann|]; [|injection Ec as <-; exact I].
        destruct (from_dictionary (Ok s) ann x) as [x'|e1] eqn:E1; simpl in Ec.
        -- destruct (convert_items (Ok s) k items) as [kws|e2] eqn:E2; simpl in Ec;
             [discriminate|].
           injection Ec as <-. apply (IHitems e2 eq_refl).
        -- injection Ec as <-. apply (Hx ann e1 E1).
      * injection Ec as <-. exact I.
  - destruct (dataclass_of ann) as [k|] eqn:Ek.
    2:{ rewrite from_dictionary_plain in H by exact Ek. discriminate. }
    apply dataclass_of_some in Ek. subst ann.
    destruct v; cbn [from_dictionary dataclass_of] in H;
      try (injection H as <-; exact I).
    + destruct s0; [eapply construct_caught; eassumption|].
      destruct (fieldtype k _); injection H as <-; exact I.
    + destruct xs as [|x xs]; [eapply construct_caught; eassumption|].
      destruct x; cbn [repr_key] in H;
        repeat match type of H with
          | match ?b with _ => _ end = _ => destruct b
          end;
        injection H as <-; exact I.
    + exfalso. apply (Hv items). reflexivity.
Qed.

Lemma fieldtype_field : forall c f ann,
    fieldtype c f = Some ann ->
    exists fd, In fd (fields_of c) /\ fname fd = f /\ ftype fd = ann.
Proof.
  intros c f ann. unfold fieldtype.
  induction (fields_of c) as [|fd fds IH]; cbn [map assoc]; intro H.
  - discriminate.
  - destruct (String.eqb_spec (fname fd) f) as [E|E].
    + injection H as <-. exists fd. repeat split; auto. left. reflexivity.
    + destruct (IH H) as (fd' & Hin & Hf & Ht). exists fd'.
      repeat split; auto. right. exact Hin.
Qed.

Lemma primitive_mismatch_plain : forall ann v,
    primitive_mismatch ann v = true -> dataclass_of ann = None.
Proof.
  intros ann v H. unfold primitive_mismatch in H.
  destruct (dataclass_of ann); [|reflexivity].
  destruct v, ann; discriminate.
Qed.

Lemma check_field_mismatch : forall union_name c fd v,
    primitive_mismatch (ftype fd) v = true ->
    exists e, check_field union_name c fd v = Raise e.
Proof.
  intros union_name c fd v H.
  assert (Hd := primitive_mismatch_plain _ _ H).
  unfold primitive_mismatch in H. rewrite Hd in H. unfold check_field.
  destruct v, (ftype fd); try discriminate;
    apply negb_true_iff in H; rewrite H;
    destruct (annotation_name union_name _) as [n|e]; simpl; eexists; reflexivity.
Qed.

(** A keyword bound to a mismatching value makes the call of the class
    raise. *)
Lemma construct_mismatch : forall union_name c kwargs f v ann,
    assoc f kwargs = Some v ->
    fieldtype c f = Some ann ->
    primitive_mismatch ann v = true ->
    exists e, construct union_name c kwargs = Raise e.
Proof.
  intros union_name c kwargs f v ann Hv Hf Hm. unfold construct.
  destruct (existsb _ kwargs); [eexists; reflexivity|].
  destruct (existsb _ (fields_of c)); [eexists; reflexivity|].
  change (map (fun fd => (fname fd, match assoc (fname fd) kwargs with
                                    | Some v => v
                                    | None => VNone
                                    end)) (fields_of c))
    with (map (fun fd => (fname fd, field_value kwargs fd)) (fields_of c)).
  rewrite post_init_check_all.
  destruct (fieldtype_field c f ann Hf) as (fd & Hin & Hname & Htype).
  destruct (check_field_mismatch union_name c fd v) as [e He];
    [rewrite Htype; exact Hm|].
  destruct (check_all_raises union_name c (fields_of c) kwargs fd e Hin) as [e' He'].
  - unfold field_value. rewrite Hname, Hv. exact He.
  - rewrite He'. simpl. eexists. reflexivity.
Qed.

Lemma convert_items_keeps : forall union_name k items kwargs f v ann,
    convert_items union_name k items = Ok kwargs ->
    dict_get (KStr f) items = Some v ->
    fieldtype k f = Some ann ->
    dataclass_of ann = None ->
    assoc f kwargs = Some v.
Proof.
  intros union_name k items. induction items as [|[[g|r] x] items IH];
    intros kwargs f v ann Hc Hg Hf Hd; simpl in Hc, Hg.
  - discriminate.
  - destruct (fieldtype k g) as [ann'|] eqn:Eg; [|discriminate].
    destruct (from_dictionary union_name ann' x) as [x'|] eqn:Ex; simpl in Hc;
      [|discriminate].
    destruct (convert_items union_name k items) as [kws|] eqn:Ek; simpl in Hc;
      [|discriminate].
    injection Hc as <-. simpl.
    destruct (String.eqb_spec g f) as [->|Hne].
    + injection Hg as ->. rewrite Hf in Eg. injection Eg as <-.
      rewrite from_dictionary_plain in Ex by exact Hd. congruence.
    + eapply IH; eauto.
  - discriminate.
Qed.

Lemma convert_items_raises : forall union_name k items f v ann e,
    In (KStr f, v) items ->
    fieldtype k f = Some ann ->
    from_dictionary union_name ann v = Raise e ->
    exists e', convert_items union_name k items = Raise e'.
Proof.
  intros union_name k items f v ann e. induction items as [|[[g|r] x] items IH];
    intros Hin Hf He; simpl.
  - destruct Hin.
  - destruct (fieldtype k g) as [ann'|] eqn:Eg; [|eexists; reflexivity].
    destruct (from_dictionary union_name ann' x) as [x'|e1] eqn:Ex; simpl;
      [|eexists; reflexivity].
    destruct Hin as [Heq|Hin].
    + injection Heq as -> ->. congruence.
    + destruct (IH Hin Hf He) as [e' He']. rewrite He'. simpl.
      eexists. reflexivity.
  - eexists. reflexivity.
Qed.

(** A mapping with a mismatching value is not turned into an instance. *)
Lemma from_dictionary_mismatched : forall union_name c d,
    mismatched c d ->
    exists e, from_dictionary union_name (Plain (Tclass c)) d = Raise e.
Proof.
  intros union_name c d H.
  induction H as [c items f v ann Hg Hf Hm | c items f v k Hin Hf Hk IH];
    rewrite from_dictionary_dict.
  - destruct (convert_items union_name c items) as [kwargs|e] eqn:Ec; simpl;
      [|eexists; reflexivity].
    eapply construct_mismatch; [|exact Hf|exact Hm].
    eapply convert_items_keeps; eauto. eapply primitive_mismatch_plain; eauto.
  - destruct IH as [e He].
    destruct (convert_items_raises union_name c items f v _ e Hin Hf He) as [e' He'].
    rewrite He'. simpl. eexists. reflexivity.
Qed.

Lemma handle_caught : forall p e,
    caught e -> exists msg, handle p e = SystemExit ("ERROR in " ++ p ++ ": " ++ msg).
Proof.
  intros p e H. destruct e; try contradiction; simpl.
  - eexists. reflexivity.
  - eexists. reflexivity.
  - exists ("Invalid key " ++ key ++ ".")%string. reflexivity.
  - eexists. reflexivity.
Qed.

Lemma load_courses_aborts : forall union_name include_unscheduled files f e,
    In f files ->
    load_course union_name include_unscheduled f = Raise e ->
    exists e', load_courses union_name include_unscheduled files = Raise e'.
Proof.
  intros union_name inc files f e. induction files as [|g files IH];
    intros Hin He; simpl.
  - destruct Hin.
  - destruct (load_course union_name inc g) as [r|e1] eqn:Eg; simpl;
      [|eexists; reflexivity].
    destruct Hin as [->|Hin]; [congruence|].
    destruct (IH Hin He) as [e' He']. rewrite He'. simpl. eexists. reflexivity.
Qed.

(** C6, as stated, fails: a definition without a [time] section is left
    out before it is built when unscheduled courses are not asked for, so
    its [website] given as an integer is never checked and the file is
    skipped; and a [name] given as an integer is overwritten by the folder
    name before the check, so that file loads. *)
Lemma mismatch_skipped_or_overwritten :
  mismatched CCourse (VDict [(KStr "website", VInt 5)]) /\
  load_course (Ok "Union") false
    (file_of "LA/lecture/info.yaml" (VDict [(KStr "website", VInt 5)]))
  = Ok None /\
  load_courses (Ok "Union") false
    [file_of "LA/lecture/info.yaml" (VDict [(KStr "website", VInt 5)])]
  = Ok [] /\
  mismatched CCourse (VDict [(KStr "name", VInt 5)]) /\
  load_course (Ok "Union") true
    (file_of "LA/lecture/info.yaml" (VDict [(KStr "name", VInt 5)]))
  = Ok (Some
          (VObj CCourse
             [("name", VStr "Linear Algebra"); ("type", VStr "lecture");
              ("abbreviation", VStr "LA"); ("teacher", VNone); ("time", VNone);
              ("classroom", VNone); ("website", VNone); ("finals", VNone);
              ("other", VNone)])).
Proof.
  split; [|split; [|split; [|split]]]; try reflexivity.
  - apply (mismatched_here CCourse _ "website" (VInt 5) (Plain Tstr)); reflexivity.
  - apply (mismatched_here CCourse _ "name" (VInt 5) (Plain Tstr)); reflexivity.
Qed.

(** C6, amended: take a definition that is built, that is, one that has a
    [time] entry or is loaded with unscheduled courses included, and whose
    mapping, once [name], [type] and [abbreviation] are set from the path,
    holds under a field, or under a field of a nested section, a value
    other than [None] that is an instance of none of the classes the field
    is annotated with (dataclass-typed fields and [Any] apart).  Then
    loading that file raises, and so does the whole load of any list of
    files it is in; when [Union.__name__] evaluates, what is raised is the
    exit message "ERROR in <path>: ...".  The strict check itself, on a
    field annotated with one class, raises the error that names the field,
    the class, the expected and the actual type, and the loader turns it
    into that exit message; for a [time.start] given as a string this is
    the message the load ends with. *)
Theorem mismatch_aborts_load :
  forall union_name include_unscheduled f document items,
    parsed f = Ok document ->
    course_dict_of (course_name f) (course_type f) (course_abbreviation f) document
    = Ok (VDict items) ->
    dict_contains (KStr "time") items || include_unscheduled = true ->
    mismatched CCourse (VDict items) ->
    (exists e,
        load_course union_name include_unscheduled f = Raise e /\
        (forall s, union_name = Ok s ->
           exists msg, e = SystemExit ("ERROR in " ++ path f ++ ": " ++ msg))) /\
    (forall files, In f files ->
       exists e, load_courses union_name include_unscheduled files = Raise e) /\
    (forall c fd v t,
        ftype fd = Plain t ->
        primitive_mismatch (Plain t) v = true ->
        check_field union_name c fd v
        = Raise (StrictTypeError (fname fd) (class_name c) (type_name t)
                   (type_name (type_of v))) /\
        handle (path f)
          (StrictTypeError (fname fd) (class_name c) (type_name t)
             (type_name (type_of v)))
        = SystemExit ("ERROR in " ++ path f ++ ": The key '" ++ fname fd
                      ++ "' in class " ++ class_name c ++ " expected '"
                      ++ type_name t ++ "' but got '" ++ type_name (type_of v)
                      ++ "' instead.")) /\
    (forall day_name start_text end_minute,
        document = start_as_string day_name start_text end_minute ->
        load_course union_name include_unscheduled f
        = Raise (SystemExit
                   ("ERROR in " ++ path f
                    ++ ": The key 'start' in class Time expected 'int' but got 'str' instead."))).
Proof.
  intros union_name inc f document items Hparsed Hdict Hguard Hm.
  assert (Hload : exists e0,
             from_dictionary union_name (Plain (Tclass CCourse)) (VDict items)
             = Raise e0 /\
             load_course union_name inc f = Raise (handle (path f) e0)).
  { destruct (from_dictionary_mismatched union_name _ _ Hm) as [e0 He0].
    exists e0. split; [exact He0|].
    unfold load_course, load_body. rewrite Hparsed. cbn [bind].
    rewrite Hdict. cbn [bind]. rewrite Hguard, He0. reflexivity. }
  destruct Hload as (e0 & He0 & Hload).
  split; [|split; [|split]].
  - exists (handle (path f) e0). split; [exact Hload|].
    intros s Hs. subst union_name. apply handle_caught.
    eapply from_dictionary_caught; eassumption.
  - intros files Hin. eapply load_courses_aborts; eassumption.
  - intros c fd v t Ht Hv. split; [|reflexivity].
    unfold primitive_mismatch in Hv. unfold check_field. rewrite Ht.
    destruct v; try discriminate; destruct t; try discriminate;
      cbn [dataclass_of alternatives] in Hv |- *;
      apply negb_true_iff in Hv; rewrite Hv; reflexivity.
  - intros day_name start_text end_minute ->.
    unfold load_course, load_body. rewrite Hparsed. reflexivity.
Qed.

Lemma mismatch_aborts_load_witness :
  exists e,
    load_course (Ok "Union") false
      (file_of "LA/lecture/info.yaml" (start_as_string "monday" "9:00" 630))
    = Raise e /\
    (forall s, Ok "Union" = Ok s ->
       exists msg,
         e = SystemExit
               ("ERROR in "
                ++ path (file_of "LA/lecture/info.yaml"
                           (start_as_string "monday" "9:00" 630))
                ++ ": " ++ msg)).
Proof.
  apply (mismatch_aborts_load (Ok "Union") false
           (file_of "LA/lecture/info.yaml" (start_as_string "monday" "9:00" 630))
           (start_as_string "monday" "9:00" 630)
           [(KStr "time",
             VDict [(KStr "day", VStr "monday"); (KStr "start", VStr "9:00");
                    (KStr "end", VInt 630)]);
            (KStr "name", VStr "Linear Algebra");
            (KStr "type", VStr "lecture");
            (KStr "abbreviation", VStr "LA")]).
  - reflexivity.
  - reflexivity.
  - reflexivity.
  - apply (mismatched_below CCourse _ "time"
             (VDict [(KStr "day", VStr "monday"); (KStr "start", VStr "9:00");
                     (KStr "end", VInt 630)]) CTime).
    + left. reflexivity.
    + reflexivity.
    + apply (mismatched_here CTime _ "start" (VStr "9:00") (Plain Tint));
        reflexivity.
Defined.

(** The scenario of C6 run on the loader. *)
Example start_as_string_rejected :
  load_courses (Ok "Union") false
    [file_of "LA/lecture/info.yaml" (start_as_string "monday" "9:00" 630)]
  = Raise (SystemExit
             "ERROR in LA/lecture/info.yaml: The key 'start' in class Time expected 'int' but got 'str' instead.").
Proof. reflexivity. Qed.

(** ** The dispatcher on its own tree *)

(** With the aliases "list" and "load" the token "l" is ambiguous and the
    token "li" picks "list"; on the program's tree the tokens of
    "o co la-p" lead to the action that opens the course folder. *)
Example dispatch_examples :
  descend "l" [(["list"], Leaf do_list_courses ""); (["load"], Leaf do_open_config "")]
  = Raise (SystemExit "ERROR: Ambiguous decisions for 'l': {list, load}") /\
  descend "li" [(["list"], Leaf do_list_courses ""); (["load"], Leaf do_open_config "")]
  = Ok (["list"], Leaf do_list_courses "") /\
  main ["o"; "co"; "la-p"]
  = Ok (do_open_folder, ["la-p"], [["open"]; ["folder"; "course"]]) /\
  main ["list"]
  = Raise (SystemExit
             "ERROR: Decisions remaining: {courses, attribute, finals, timeline}") /\
  main ["x"]
  = Raise (SystemExit
             "ERROR: 'x' doesn't match decisions in the decision tree: {list, compile, config, check, open}").
Proof. repeat split; reflexivity. Qed.

(** ** Flags *)

Lemma pop_at_middle : forall {X : Type} (pre : list X) a rest,
    pop_at (List.length pre) (pre ++ a :: rest) = pre ++ rest.
Proof.
  intros X pre a rest. unfold pop_at.
  induction pre as [|x pre IH]; simpl; [reflexivity|].
  f_equal. exact IH.
Qed.

(** The loop, from the index [length pre] on, with enough fuel *)
Lemma flags_loop_after : forall fuel rest pre short,
    (List.length rest <= fuel)%nat ->
    flags_loop fuel (pre ++ rest) (List.length pre) short
    = Some (pre ++ fst (after_flags rest), short || snd (after_flags rest)).
Proof.
  induction fuel as [|fuel IH]; intros rest pre short Hfuel.
  - destruct rest; [|simpl in Hfuel; lia]. simpl.
    rewrite app_nil_r, Nat.ltb_irrefl, orb_false_r. reflexivity.
  - destruct rest as [|a rest].
    + simpl. rewrite app_nil_r, Nat.ltb_irrefl, orb_false_r. reflexivity.
    + cbn [flags_loop].
      assert (Hlt : (List.length pre <? List.length (pre ++ a :: rest))%nat = true).
      { apply Nat.ltb_lt. rewrite length_app. simpl. lia. }
      rewrite Hlt, nth_middle. cbn [after_flags].
      destruct (is_flag a) eqn:Ea; cbn [negb].
      * rewrite pop_at_middle. destruct rest as [|b rest].
        -- destruct fuel; cbn [flags_loop fst snd];
             rewrite !app_nil_r;
             replace (List.length pre + 1 <? List.length pre)%nat with false
               by (symmetry; apply Nat.ltb_ge; lia);
             simpl; destruct (is_short_flag a), short; reflexivity.
        -- replace (pre ++ b :: rest) with ((pre ++ [b]) ++ rest)
             by (rewrite <- app_assoc; reflexivity).
           replace (List.length pre + 1)%nat with (List.length (pre ++ [b]))
             by (rewrite length_app; reflexivity).
           rewrite IH by (simpl in Hfuel; lia).
           rewrite <- app_assoc. simpl.
           destruct (is_short_flag a), short, (snd (after_flags rest)); reflexivity.
      * replace (pre ++ a :: rest) with ((pre ++ [a]) ++ rest)
          by (rewrite <- app_assoc; reflexivity).
        replace (List.length pre + 1)%nat with (List.length (pre ++ [a]))
          by (rewrite length_app; reflexivity).
        rewrite IH by (simpl in Hfuel; lia).
        rewrite <- app_assoc. reflexivity.
Qed.

Lemma parse_flags_after : forall arguments,
    parse_flags arguments = Some (after_flags arguments).
Proof.
  intro arguments. unfold parse_flags.
  change (flags_loop (List.length arguments) arguments 0 false)
    with (flags_loop (List.length arguments) ([] ++ arguments)
            (List.length (@nil string)) false).
  rewrite (flags_loop_after (List.length arguments) arguments [] false (le_n _)).
  simpl. destruct (after_flags arguments). reflexivity.
Qed.

Lemma after_flags_ind : forall (P : list string -> Prop),
    P [] ->
    (forall a rest, is_flag a = false -> P rest -> P (a :: rest)) ->
    (forall a, is_flag a = true -> P [a]) ->
    (forall a b rest, is_flag a = true -> P rest -> P (a :: b :: rest)) ->
    forall l, P l.
Proof.
  intros P Hnil Hkeep Hlast Hskip.
  assert (H : forall n l, (List.length l <= n)%nat -> P l).
  { induction n as [|n IH]; intros l Hl.
    - destruct l; [exact Hnil | simpl in Hl; lia].
    - destruct l as [|a rest]; [exact Hnil|].
      destruct (is_flag a) eqn:Ea.
      + destruct rest as [|b rest]; [apply Hlast, Ea|].
        apply Hskip; [exact Ea|]. apply IH. simpl in Hl. lia.
      + apply Hkeep; [exact Ea|]. apply IH. simpl in Hl. lia. }
  intro l. apply (H (List.length l)). apply le_n.
Qed.

Lemma after_flags_keeps : forall arguments,
    filter (fun a => negb (is_flag a)) (fst (after_flags arguments))
    = filter (fun a => negb (is_flag a)) arguments.
Proof.
  intro arguments.
  induction arguments as [|a rest Ea IH|a Ea|a b rest Ea IH] using after_flags_ind;
    cbn [after_flags]; rewrite ?Ea; cbn [negb fst snd filter]; rewrite ?Ea;
    cbn [negb]; try reflexivity.
  - f_equal. exact IH.
  - destruct (is_flag b); cbn [negb]; [|f_equal]; exact IH.
Qed.

Lemma after_flags_short : forall arguments,
    snd (after_flags arguments) = true -> existsb is_short_flag arguments = true.
Proof.
  intro arguments.
  induction arguments as [|a rest Ea IH|a Ea|a b rest Ea IH] using after_flags_ind;
    cbn [after_flags]; rewrite ?Ea; cbn [negb fst snd existsb]; intro Hs.
  - discriminate.
  - rewrite (IH Hs). apply orb_true_r.
  - rewrite Hs. reflexivity.
  - apply orb_true_iff in Hs. destruct Hs as [Hs|Hs].
    + rewrite (IH Hs). rewrite !orb_true_r. reflexivity.
    + rewrite Hs. reflexivity.
Qed.

(** X1: the flag loop ends, and every argument that is not a flag is
    handed on, in its place among the others; [short] is only set when
    one of the arguments is "--short" or "-s". *)
Theorem parse_flags_keeps_arguments : forall arguments,
    exists arguments' short,
      parse_flags arguments = Some (arguments', short) /\
      filter (fun a => negb (is_flag a)) arguments'
      = filter (fun a => negb (is_flag a)) arguments /\
      (short = true -> existsb is_short_flag arguments = true).
Proof.
  intro arguments. rewrite parse_flags_after.
  exists (fst (after_flags arguments)), (snd (after_flags arguments)).
  split; [destruct (after_flags arguments); reflexivity|].
  split; [apply after_flags_keeps | apply after_flags_short].
Qed.

(** X2: when no two flags stand next to each other, every flag is taken
    out, so the dispatcher gets exactly the arguments that are not flags,
    and [short] is set exactly when one of the arguments is "--short" or
    "-s". *)
Theorem parse_flags_apart : forall arguments,
    flags_apart arguments = true ->
    parse_flags arguments
    = Some (filter (fun a => negb (is_flag a)) arguments,
            existsb is_short_flag arguments).
Proof.
  intros arguments H. rewrite parse_flags_after. f_equal.
  induction arguments as [|a rest Ea IH|a Ea|a b rest Ea IH] using after_flags_ind.
  - reflexivity.
  - assert (Hrest : flags_apart rest = true).
    { destruct rest as [|b rest]; [reflexivity|].
      cbn [flags_apart] in H. apply andb_prop in H. apply H. }
    specialize (IH Hrest). cbn [after_flags]. rewrite Ea. cbn [negb filter existsb].
    rewrite Ea. cbn [negb]. rewrite IH. cbn [fst snd].
    assert (Hs : is_short_flag a = false).
    { unfold is_short_flag. unfold is_flag, startswith in Ea.
      destruct (String.eqb_spec a "--short") as [->|_]; [discriminate|].
      destruct (String.eqb_spec a "-s") as [->|_]; [discriminate|]. reflexivity. }
    rewrite Hs. reflexivity.
  - cbn [after_flags]. rewrite Ea. cbn [negb filter existsb]. rewrite Ea.
    cbn [negb]. rewrite orb_false_r. reflexivity.
  - cbn [flags_apart] in H. rewrite Ea in H. cbn [andb] in H.
    apply andb_prop in H. destruct H as [Hb H].
    apply negb_true_iff in Hb.
    assert (Hrest : flags_apart rest = true).
    { destruct rest as [|c rest]; [reflexivity|].
      cbn [flags_apart] in H. apply andb_prop in H. apply H. }
    specialize (IH Hrest). cbn [after_flags]. rewrite Ea. cbn [negb filter existsb].
    rewrite Ea, Hb. cbn [negb]. rewrite IH. cbn [fst snd].
    assert (Hs : is_short_flag b = false).
    { unfold is_short_flag. unfold is_flag, startswith in Hb.
      destruct (String.eqb_spec b "--short") as [->|_]; [discriminate|].
      destruct (String.eqb_spec b "-s") as [->|_]; [discriminate|]. reflexivity. }
    rewrite Hs. cbn [orb].
    destruct (is_short_flag a), (existsb is_short_flag rest); reflexivity.
Qed.

Lemma parse_flags_apart_witness :
  parse_flags ["list"; "-s"; "courses"] = Some (["list"; "courses"], true).
Proof. apply (parse_flags_apart ["list"; "-s"; "courses"]). reflexivity. Defined.




(** ** Times as text *)

Lemma Z_range_forallb : forall (P : Z -> bool) (n : Z),
    forallb P (map Z.of_nat (seq 0 (Z.to_nat n))) = true ->
    forall z, (0 <= z < n)%Z -> P z = true.
Proof.
  intros P n H z Hz. rewrite forallb_forall in H. apply H.
  apply in_map_iff. exists (Z.to_nat z). split; [lia|].
  apply in_seq. lia.
Qed.

(** X4: for a time of day and a weekday index, the cron expression has a
    minute field in 0-59 and an hour field in 0-23 that make up the time
    again, and the day field is the weekday index plus one, in 1-7. *)
Theorem get_cron_schedule_fields : forall time day,
    (0 <= time < 1440)%Z -> (0 <= day <= 6)%Z ->
    exists m h d,
      get_cron_schedule time day
      = (str_of_int m ++ " " ++ str_of_int h ++ " * * " ++ str_of_int d)%string /\
      (0 <= m <= 59)%Z /\ (0 <= h <= 23)%Z /\ (1 <= d <= 7)%Z /\
      (h * 60 + m = time)%Z /\ d = (day + 1)%Z.
Proof.
  intros time day Ht Hd. exists (time mod 60)%Z, (time / 60)%Z, (day + 1)%Z.
  split; [reflexivity|].
  assert (Hm := Z.mod_pos_bound time 60 eq_refl).
  assert (Hdiv := Z.div_mod time 60). 
  assert (0 <= time / 60 < 24)%Z.
  { split; [apply Z.div_pos; lia | apply Z.div_lt_upper_bound; lia]. }
  repeat split; lia.
Qed.

Lemma get_cron_schedule_fields_witness :
  exists m h d,
    get_cron_schedule 625 0
    = (str_of_int m ++ " " ++ str_of_int h ++ " * * " ++ str_of_int d)%string /\
    (0 <= m <= 59)%Z /\ (0 <= h <= 23)%Z /\ (1 <= d <= 7)%Z /\
    (h * 60 + m = 625)%Z /\ d = (0 + 1)%Z.
Proof. apply (get_cron_schedule_fields 625 0); lia. Defined.

(** X5: the reminder five minutes before the end of a course that ends
    before 00:05 is scheduled at the hour -1, which is no hour of a cron
    expression. *)
Theorem get_cron_schedule_before_midnight : forall end_minute day,
    (0 <= end_minute < 5)%Z ->
    get_cron_schedule (end_minute - 5) day
    = (str_of_int (end_minute + 55) ++ " -1 * * " ++ str_of_int (day + 1))%string.
Proof.
  intros e day He. unfold get_cron_schedule.
  replace ((e - 5) mod 60)%Z with (e + 55)%Z.
  - replace ((e - 5) / 60)%Z with (-1)%Z; [reflexivity|].
    apply (Z.div_unique (e - 5) 60 (-1) (e + 55)); lia.
  - apply (Z.mod_unique (e - 5) 60 (-1) (e + 55)); lia.
Qed.

Lemma get_cron_schedule_before_midnight_witness :
  get_cron_schedule (3 - 5) 0 = "58 -1 * * 1".
Proof. apply (get_cron_schedule_before_midnight 3 0). lia. Defined.

Lemma minutes_to_HHMM_checked :
  forallb
    (fun z => (String.length (minutes_to_HHMM z) =? 5)%nat
              && match HHMM_to_minutes (minutes_to_HHMM z) with
                 | Some z' => (z' =? z)%Z
                 | None => false
                 end)
    (map Z.of_nat (seq 0 (Z.to_nat 6000))) = true.
Proof. vm_compute. reflexivity. Qed.

(** X6: for every number of minutes below 100 hours, [minutes_to_HHMM]
    gives five characters, from which the number of minutes is read back;
    so different times are shown differently. *)
Theorem minutes_to_HHMM_round_trip : forall minutes,
    (0 <= minutes < 6000)%Z ->
    String.length (minutes_to_HHMM minutes) = 5%nat /\
    HHMM_to_minutes (minutes_to_HHMM minutes) = Some minutes.
Proof.
  intros minutes H.
  pose proof (Z_range_forallb _ 6000%Z minutes_to_HHMM_checked minutes H) as Hc.
  cbv beta in Hc. apply andb_prop in Hc.
  destruct Hc as [Hlen Hdec]. split; [apply Nat.eqb_eq, Hlen|].
  destruct (HHMM_to_minutes (minutes_to_HHMM minutes)); [|discriminate].
  f_equal. apply Z.eqb_eq, Hdec.
Qed.

Lemma minutes_to_HHMM_round_trip_witness :
  String.length (minutes_to_HHMM 545) = 5%nat /\
  HHMM_to_minutes (minutes_to_HHMM 545) = Some 545%Z.
Proof. apply (minutes_to_HHMM_round_trip 545). lia. Defined.

(** ** Weekday names in Czech *)

(** X7: [weekday_to_cz] knows exactly the day names [weekday] finds in
    [WD_EN], in any letter case, and gives the Czech name at the same
    index; for any other name, "sunday" among them, it raises [KeyError]. *)
Theorem weekday_to_cz_index : forall day_name,
    weekday_to_cz day_name
    = match index_of (lower day_name) WD_EN with
      | Ok i => Ok (nth (Z.to_nat i) WD_CZ EmptyString)
      | Raise _ => Raise (KeyError (repr_str (lower day_name)))
      end.
Proof.
  intro day_name. unfold weekday_to_cz. generalize (lower day_name) as k. intro k.
  unfold WD_EN, WD_CZ. cbn [combine index_of].
  repeat match goal with
    | |- context [String.eqb ?s k] =>
        destruct (String.eqb_spec s k) as [<-|?]; [reflexivity|]
    end.
  cbn [dict_of_pairs_getitem].
  repeat match goal with
    | H : ?s <> k |- _ =>
        rewrite (proj2 (String.eqb_neq s k) H); clear H
    end.
  reflexivity.
Qed.

(** X8: a Czech name that [weekday_to_cz] gives is turned back by
    [weekday_to_en] into the lower-case English name it came from. *)
Theorem weekday_cz_en_round_trip : forall day_name cz,
    weekday_to_cz day_name = Ok cz ->
    weekday_to_en cz = Ok (lower day_name).
Proof.
  intros day_name cz. rewrite weekday_to_cz_index.
  generalize (lower day_name) as k. intro k.
  unfold WD_EN. cbn [index_of].
  repeat match goal with
    | |- context [String.eqb ?s k] =>
        destruct (String.eqb_spec s k) as [<-|?];
        [intro H; injection H as <-; reflexivity|]
    end.
  discriminate.
Qed.

Lemma weekday_cz_en_round_trip_witness :
  weekday_to_en "úterý" = Ok (lower "Tuesday").
Proof. apply (weekday_cz_en_round_trip "Tuesday" "úterý"). reflexivity. Defined.

(** ** Paths *)

Lemma length_append : forall a b,
    String.length (a ++ b)%string = (String.length a + String.length b)%nat.
Proof.
  intros a b. induction a as [|c a IH]; simpl; [reflexivity|].
  rewrite IH. reflexivity.
Qed.

Lemma append_assoc : forall a b c, ((a ++ b) ++ c = a ++ (b ++ c))%string.
Proof.
  intros a b c. induction a as [|x a IH]; simpl; [reflexivity|].
  rewrite IH. reflexivity.
Qed.

Lemma append_empty : forall a, (a ++ EmptyString)%string = a.
Proof.
  induction a as [|x a IH]; simpl; [reflexivity|]. rewrite IH. reflexivity.
Qed.

Lemma substring_all : forall s, substring 0 (String.length s) s = s.
Proof.
  induction s as [|c s IH]; simpl; [reflexivity|]. rewrite IH. reflexivity.
Qed.

Lemma substring_take : forall a b,
    substring 0 (String.length a) (a ++ b)%string = a.
Proof.
  intros a b. induction a as [|c a IH]; simpl.
  - destruct b; reflexivity.
  - rewrite IH. reflexivity.
Qed.

Lemma substring_drop : forall a b m,
    substring (String.length a) m (a ++ b)%string = substring 0 m b.
Proof.
  intros a b m. induction a as [|c a IH]; simpl; [reflexivity | exact IH].
Qed.

Lemma slice_drop : forall a b,
    slice (a ++ b)%string (Some (Z.of_nat (String.length a))) None = b.
Proof.
  intros a b. unfold slice, slice_index. rewrite length_append.
  destruct (Z.ltb_spec (Z.of_nat (String.length a)) 0); [lia|].
  rewrite Z.min_l by lia. rewrite Nat2Z.id, substring_drop.
  replace (Z.to_nat (Z.of_nat (String.length a + String.length b)
                     - Z.of_nat (String.length a)))
    with (String.length b) by lia.
  apply substring_all.
Qed.

Lemma slice_take : forall a b,
    slice (a ++ b)%string None (Some (Z.of_nat (String.length a))) = a.
Proof.
  intros a b. unfold slice, slice_index. rewrite length_append.
  destruct (Z.ltb_spec (Z.of_nat (String.length a)) 0); [lia|].
  rewrite Z.min_l by lia. rewrite Z.sub_0_r, Nat2Z.id. apply substring_take.
Qed.

Lemma str_index_at : forall ch a b,
    contains ch a = false ->
    str_index ch (a ++ String ch b)%string = Ok (Z.of_nat (String.length a)).
Proof.
  intros ch a b. induction a as [|c a IH]; cbn [append str_index contains];
    intro H.
  - rewrite Ascii.eqb_refl. reflexivity.
  - apply orb_false_elim in H. destruct H as [Hc Ha].
    rewrite Hc, (IH Ha). cbn [bind String.length]. f_equal. lia.
Qed.

Lemma str_index_absent : forall ch a,
    contains ch a = false -> str_index ch a = Raise ValueError.
Proof.
  intros ch a. induction a as [|c a IH]; simpl; intro H; [reflexivity|].
  apply orb_false_elim in H. destruct H as [Hc Ha].
  rewrite Hc, (IH Ha). reflexivity.
Qed.

Lemma str_rfind_absent : forall ch a,
    contains ch a = false -> str_rfind ch a = (-1)%Z.
Proof.
  intros ch a. induction a as [|c a IH]; simpl; intro H; [reflexivity|].
  apply orb_false_elim in H. destruct H as [Hc Ha].
  rewrite (IH Ha), Hc. reflexivity.
Qed.

Lemma str_rfind_at : forall ch a b,
    contains ch b = false ->
    str_rfind ch (a ++ String ch b)%string = Z.of_nat (String.length a).
Proof.
  intros ch a b Hb. induction a as [|c a IH]; cbn [append str_rfind String.length].
  - rewrite (str_rfind_absent ch b Hb), Ascii.eqb_refl. reflexivity.
  - rewrite IH. destruct (Z.leb_spec 0 (Z.of_nat (String.length a))); lia.
Qed.

(** The abbreviation between the brackets of [" (ABBR)"] *)
Lemma slice_brackets : forall a,
    slice (" (" ++ a ++ ")")%string (Some 2%Z) (Some (-1)%Z) = a.
Proof.
  intro a. unfold slice, slice_index.
  change (" (" ++ a ++ ")")%string with (String " " (String "(" (a ++ ")")))%string.
  cbn [String.length]. rewrite length_append. cbn [String.length].
  destruct (Z.ltb_spec 2 0); [lia|]. destruct (Z.ltb_spec (-1) 0); [|lia].
  rewrite Z.min_l by lia. rewrite Z.max_l by lia.
  change (Z.to_nat 2) with 2%nat. cbn [substring].
  replace (Z.to_nat (-1 + Z.of_nat (S (S (String.length a + 1))) - 2))
    with (String.length a) by lia.
  apply substring_take.
Qed.

Lemma names_of_path_cut : forall folder t rest,
    contains "/" folder = false ->
    contains "/" t = false ->
    names_of_path (courses_folder ++ folder ++ "/" ++ t ++ "/" ++ rest)
    = Ok (slice folder None (Some (str_rfind " " folder)),
          t,
          slice (slice folder (Some (str_rfind " " folder)) None)
            (Some 2%Z) (Some (-1)%Z)).
Proof.
  intros folder t rest Hf Ht. unfold names_of_path.
  rewrite slice_drop.
  change (folder ++ "/" ++ t ++ "/" ++ rest)%string
    with (folder ++ String "/" (t ++ String "/" rest))%string.
  rewrite (str_index_at "/" folder _ Hf). cbn [bind].
  rewrite slice_take.
  replace (Z.of_nat (String.length folder) + 1)%Z
    with (Z.of_nat (String.length (folder ++ "/")))
    by (rewrite length_append; simpl; lia).
  replace (folder ++ String "/" (t ++ String "/" rest))%string
    with ((folder ++ "/") ++ (t ++ String "/" rest))%string
    by (rewrite append_assoc; reflexivity).
  rewrite slice_drop.
  rewrite (str_index_at "/" t _ Ht). cbn [bind].
  rewrite slice_take. reflexivity.
Qed.

Lemma ends_with_char_last : forall ch a c,
    ends_with_char ch (a ++ String c EmptyString) = Ascii.eqb c ch.
Proof.
  intros ch a c. induction a as [|x a IH]; [reflexivity|].
  cbn [append ends_with_char].
  destruct (a ++ String c EmptyString)%string eqn:E; [destruct a; discriminate|].
  exact IH.
Qed.

Lemma startswith_sep : forall s,
    contains "/" s = false -> startswith s "/" = false.
Proof.
  intros [|c s] H; [reflexivity|].
  cbn [contains] in H. apply orb_false_elim in H. destruct H as [Hc _].
  unfold startswith. cbn [String.prefix].
  destruct (ascii_dec "/" c) as [<-|_]; [discriminate Hc | reflexivity].
Qed.

(** X9: a definition file found under
    "<courses folder><name> (<abbreviation>)/<type>/..." yields exactly that
    name, type and abbreviation, provided none of them holds a "/" and the
    abbreviation holds no space; and [Course.path] of the course so named
    is the folder the file was found under. *)
Theorem names_of_path_round_trip : forall n a t rest,
    contains "/" n = false ->
    contains "/" a = false ->
    contains " " a = false ->
    contains "/" t = false ->
    names_of_path (courses_folder ++ (n ++ " (" ++ a ++ ")") ++ "/" ++ t ++ "/" ++ rest)
    = Ok (n, t, a) /\
    course_path (course_at n a t) false
    = (courses_folder ++ (n ++ " (" ++ a ++ ")") ++ "/" ++ t)%string /\
    course_path (course_at n a t) true
    = (courses_folder ++ (n ++ " (" ++ a ++ ")"))%string.
Proof.
  intros n a t rest Hn Ha Hsp Ht.
  assert (Hfolder : contains "/" (n ++ " (" ++ a ++ ")")%string = false).
  { rewrite !contains_app, Hn, Ha. reflexivity. }
  assert (Hr : str_rfind " " (n ++ " (" ++ a ++ ")")%string
               = Z.of_nat (String.length n)).
  { change (n ++ " (" ++ a ++ ")")%string
      with (n ++ String " " ("(" ++ a ++ ")"))%string.
    apply str_rfind_at. rewrite !contains_app, Hsp. reflexivity. }
  split; [|split].
  - rewrite (names_of_path_cut _ t rest Hfolder Ht), Hr.
    rewrite slice_take, slice_drop, slice_brackets. reflexivity.
  - unfold course_path, os_path_join, join_step. cbn [app fold_left name type abbreviation course_at].
    assert (H1 : startswith (n ++ " (" ++ a ++ ")") "/" = false)
      by (apply startswith_sep; exact Hfolder).
    assert (H2 : startswith t "/" = false) by (apply startswith_sep; exact Ht).
    rewrite H1, H2.
    change (ends_with_char "/" courses_folder) with true.
    rewrite orb_true_r.
    assert (H3 : ends_with_char "/" (courses_folder ++ (n ++ " (" ++ a ++ ")")) = false).
    { replace (courses_folder ++ (n ++ " (" ++ a ++ ")"))%string
        with ((courses_folder ++ n ++ " (" ++ a) ++ ")")%string
        by (rewrite !append_assoc; reflexivity).
      apply ends_with_char_last. }
    rewrite H3.
    destruct (String.eqb_spec (courses_folder ++ (n ++ " (" ++ a ++ ")")) EmptyString)
      as [E|_]; [discriminate E|].
    cbn [orb]. rewrite !append_assoc. reflexivity.
  - unfold course_path, os_path_join, join_step. cbn [app fold_left name type abbreviation course_at].
    assert (H1 : startswith (n ++ " (" ++ a ++ ")") "/" = false)
      by (apply startswith_sep; exact Hfolder).
    rewrite H1. change (ends_with_char "/" courses_folder) with true.
    rewrite orb_true_r. reflexivity.
Qed.

Lemma names_of_path_round_trip_witness :
  names_of_path (courses_folder ++ ("Linear Algebra" ++ " (" ++ "LA" ++ ")")
                 ++ "/" ++ "lecture" ++ "/" ++ "info.yaml")
  = Ok ("Linear Algebra", "lecture", "LA") /\
  course_path (course_at "Linear Algebra" "LA" "lecture") false
  = (courses_folder ++ ("Linear Algebra" ++ " (" ++ "LA" ++ ")") ++ "/" ++ "lecture")%string /\
  course_path (course_at "Linear Algebra" "LA" "lecture") true
  = (courses_folder ++ ("Linear Algebra" ++ " (" ++ "LA" ++ ")"))%string.
Proof.
  apply (names_of_path_round_trip "Linear Algebra" "LA" "lecture" "info.yaml");
    reflexivity.
Defined.

(** X10: a definition file that lies directly in a course folder, with no
    type folder in between, or directly in the courses folder, makes the
    loader raise [ValueError] while it cuts the path; neither [except]
    clause catches it, so it is not turned into an "ERROR in ..." exit. *)
Theorem names_of_path_without_type_folder :
  forall union_name include_unscheduled folder file document,
    contains "/" folder = false ->
    contains "/" file = false ->
    names_of_path (courses_folder ++ folder ++ "/" ++ file) = Raise ValueError /\
    load_path union_name include_unscheduled
      (courses_folder ++ folder ++ "/" ++ file) document = Raise ValueError /\
    names_of_path (courses_folder ++ file) = Raise ValueError /\
    load_path union_name include_unscheduled (courses_folder ++ file) document
    = Raise ValueError.
Proof.
  intros union_name inc folder file document Hfolder Hfile.
  assert (H1 : names_of_path (courses_folder ++ folder ++ "/" ++ file)
               = Raise ValueError).
  { unfold names_of_path. rewrite slice_drop.
    change (folder ++ "/" ++ file)%string with (folder ++ String "/" file)%string.
    rewrite (str_index_at "/" folder _ Hfolder). cbn [bind].
    rewrite slice_take.
    replace (Z.of_nat (String.length folder) + 1)%Z
      with (Z.of_nat (String.length (folder ++ "/")))
      by (rewrite length_append; simpl; lia).
    replace (folder ++ String "/" file)%string with ((folder ++ "/") ++ file)%string
      by (rewrite append_assoc; reflexivity).
    rewrite slice_drop, (str_index_absent "/" file Hfile). reflexivity. }
  assert (H2 : names_of_path (courses_folder ++ file) = Raise ValueError).
  { unfold names_of_path. rewrite slice_drop, (str_index_absent "/" file Hfile).
    reflexivity. }
  unfold load_path. rewrite H1, H2. repeat split; reflexivity.
Qed.

Lemma names_of_path_without_type_folder_witness :
  names_of_path (courses_folder ++ "Linear Algebra (LA)" ++ "/" ++ "info.yaml")
  = Raise ValueError /\
  load_path (Ok "Union") false
    (courses_folder ++ "Linear Algebra (LA)" ++ "/" ++ "info.yaml") (Ok VNone)
  = Raise ValueError /\
  names_of_path (courses_folder ++ "info.yaml") = Raise ValueError /\
  load_path (Ok "Union") false (courses_folder ++ "info.yaml") (Ok VNone)
  = Raise ValueError.
Proof.
  apply (names_of_path_without_type_folder (Ok "Union") false
           "Linear Algebra (LA)" "info.yaml" (Ok VNone)); reflexivity.
Defined.



(** ** Loaded courses *)

Lemma hashable_eqb_eq : forall a b, hashable_eqb a b = true <-> a = b.
Proof.
  intros [s|r] [s'|r']; simpl; split; intro H; try discriminate.
  - apply String.eqb_eq in H. subst. reflexivity.
  - injection H as ->. apply String.eqb_refl.
  - apply String.eqb_eq in H. subst. reflexivity.
  - injection H as ->. apply String.eqb_refl.
Qed.

Lemma dict_get_set_same : forall k v items,
    dict_get k (dict_set k v items) = Some v.
Proof.
  intros k v items. induction items as [|[k' v'] items IH]; simpl.
  - rewrite (proj2 (hashable_eqb_eq k k) eq_refl). reflexivity.
  - destruct (hashable_eqb k' k) eqn:E; simpl.
    + rewrite (proj2 (hashable_eqb_eq k k) eq_refl). reflexivity.
    + rewrite E. exact IH.
Qed.

Lemma dict_get_set_other : forall k k' v items,
    k <> k' -> dict_get k (dict_set k' v items) = dict_get k items.
Proof.
  intros k k' v items Hne. induction items as [|[k0 v0] items IH]; simpl.
  - destruct (hashable_eqb k' k) eqn:E; [|reflexivity].
    apply hashable_eqb_eq in E. congruence.
  - destruct (hashable_eqb k0 k') eqn:E; simpl.
    + apply hashable_eqb_eq in E. subst k0.
      destruct (hashable_eqb k' k) eqn:E'; [|reflexivity].
      apply hashable_eqb_eq in E'. congruence.
    + destruct (hashable_eqb k0 k); [reflexivity | exact IH].
Qed.

Lemma course_dict_of_inv : forall n t a document cd,
    course_dict_of n t a document = Ok cd ->
    exists items0,
      cd = VDict (dict_set (KStr "abbreviation") (VStr a)
                    (dict_set (KStr "type") (VStr t)
                       (dict_set (KStr "name") (VStr n) items0))).
Proof.
  intros n t a document cd H. unfold course_dict_of in H.
  destruct (truthy document).
  - destruct document; cbn [setitem bind] in H; try discriminate.
    injection H as <-. exists items. reflexivity.
  - cbn [setitem bind] in H. injection H as <-. exists []. reflexivity.
Qed.

Lemma load_course_built : forall union_name inc f v,
    load_course union_name inc f = Ok (Some v) ->
    exists document items,
      parsed f = Ok document /\
      course_dict_of (course_name f) (course_type f) (course_abbreviation f) document
      = Ok (VDict items) /\
      from_dictionary union_name (Plain (Tclass CCourse)) (VDict items) = Ok v.
Proof.
  intros union_name inc f v H. unfold load_course, load_body in H.
  destruct (parsed f) as [document|e] eqn:Ep; cbn [bind] in H; [|discriminate].
  destruct (course_dict_of _ _ _ document) as [cd|e] eqn:Ec; cbn [bind] in H;
    [|discriminate].
  destruct (course_dict_of_inv _ _ _ _ _ Ec) as [items0 ->].
  destruct (dict_contains _ _ || inc); [|discriminate].
  exists document. eexists. split; [reflexivity|]. split; [exact Ec|].
  destruct (from_dictionary _ _ _) as [v'|e]; cbn [bind] in H; [|discriminate].
  congruence.
Qed.

Lemma construct_ok : forall union_name c kwargs v,
    construct union_name c kwargs = Ok v ->
    v = VObj c (map (fun fd => (fname fd, field_value kwargs fd)) (fields_of c)) /\
    check_all union_name c (fields_of c) kwargs = Ok tt.
Proof.
  intros union_name c kwargs v H. unfold construct in H.
  destruct (existsb _ kwargs); [discriminate|].
  destruct (existsb _ (fields_of c)); [discriminate|].
  change (map (fun fd => (fname fd, match assoc (fname fd) kwargs with
                                    | Some v => v
                                    | None => VNone
                                    end)) (fields_of c))
    with (map (fun fd => (fname fd, field_value kwargs fd)) (fields_of c)) in H.
  rewrite post_init_check_all in H.
  destruct (check_all union_name c (fields_of c) kwargs) as [[]|e];
    cbn [bind] in H; [|discriminate].
  injection H as <-. split; reflexivity.
Qed.

Lemma check_field_accepts : forall union_name c fd v,
    check_field union_name c fd v = Ok tt -> accepts (ftype fd) v = true.
Proof.
  intros union_name c fd v H. unfold check_field in H. unfold accepts.
  destruct v, (ftype fd); try reflexivity;
    match type of H with
    | (if ?b then _ else _) = _ => destruct b; [reflexivity|]
    end;
    destruct (annotation_name union_name _); discriminate.
Qed.

Lemma fieldtype_fname : forall c fd,
    In fd (fields_of c) -> fieldtype c (fname fd) = Some (ftype fd).
Proof.
  intros c fd H. destruct c; simpl in H;
    repeat (destruct H as [<-|H]; [reflexivity|]); destruct H.
Qed.

(** X12: a definition file whose document is empty (or any other falsy
    value) is never an error: it is skipped when unscheduled courses are
    left out, and otherwise it gives the course that has the name, type
    and abbreviation of its path and [None] for every other field. *)
Theorem load_course_empty_document : forall union_name include_unscheduled f document,
    parsed f = Ok document ->
    truthy document = false ->
    load_course union_name include_unscheduled f
    = Ok (if include_unscheduled
          then Some (VObj CCourse
                       [("name", VStr (course_name f));
                        ("type", VStr (course_type f));
                        ("abbreviation", VStr (course_abbreviation f));
                        ("teacher", VNone); ("time", VNone); ("classroom", VNone);
                        ("website", VNone); ("finals", VNone); ("other", VNone)])
          else None).
Proof.
  intros union_name inc f document Hp Ht.
  unfold load_course, load_body, course_dict_of. rewrite Hp. cbn [bind].
  rewrite Ht. destruct inc; reflexivity.
Qed.

Lemma load_course_empty_document_witness :
  load_course (Ok "Union") true (file_of "LA/lecture/info.yaml" VNone)
  = Ok (Some (VObj CCourse
                [("name", VStr "Linear Algebra"); ("type", VStr "lecture");
                 ("abbreviation", VStr "LA");
                 ("teacher", VNone); ("time", VNone); ("classroom", VNone);
                 ("website", VNone); ("finals", VNone); ("other", VNone)])).
Proof.
  apply (load_course_empty_document (Ok "Union") true
           (file_of "LA/lecture/info.yaml" VNone) VNone); reflexivity.
Defined.

(** X13: whatever the document says under "name", "type" and
    "abbreviation", a loaded course carries the name, type and abbreviation
    cut out of its path. *)
Theorem load_course_names_from_path : forall union_name include_unscheduled f v,
    load_course union_name include_unscheduled f = Ok (Some v) ->
    has_attr v "name" (VStr (course_name f)) /\
    has_attr v "type" (VStr (course_type f)) /\
    has_attr v "abbreviation" (VStr (course_abbreviation f)).
Proof.
  intros union_name inc f v H.
  destruct (load_course_built _ _ _ _ H) as (document & items & _ & Hcd & Hfd).
  destruct (course_dict_of_inv _ _ _ _ _ Hcd) as [items0 Hitems].
  injection Hitems as ->.
  rewrite from_dictionary_dict in Hfd.
  destruct (convert_items union_name CCourse _) as [kwargs|e] eqn:Ec;
    cbn [bind] in Hfd; [|discriminate].
  destruct (construct_ok _ _ _ _ Hfd) as [-> _].
  assert (Hn : assoc "name" kwargs = Some (VStr (course_name f))).
  { eapply convert_items_keeps; [exact Ec| |reflexivity|reflexivity].
    rewrite !dict_get_set_other by discriminate. apply dict_get_set_same. }
  assert (Ht : assoc "type" kwargs = Some (VStr (course_type f))).
  { eapply convert_items_keeps; [exact Ec| |reflexivity|reflexivity].
    rewrite dict_get_set_other by discriminate. apply dict_get_set_same. }
  assert (Ha : assoc "abbreviation" kwargs = Some (VStr (course_abbreviation f))).
  { eapply convert_items_keeps; [exact Ec| |reflexivity|reflexivity].
    apply dict_get_set_same. }
  unfold has_attr. cbn [fields_of map fname assoc String.eqb Ascii.eqb Bool.eqb].
  unfold field_value. cbn [fname]. rewrite Hn, Ht, Ha. repeat split; reflexivity.
Qed.

Lemma load_course_names_from_path_witness :
  has_attr
    (VObj CCourse
       [("name", VStr "Linear Algebra"); ("type", VStr "lecture");
        ("abbreviation", VStr "LA"); ("teacher", VNone); ("time", VNone);
        ("classroom", VNone); ("website", VNone); ("finals", VNone);
        ("other", VNone)])
    "name" (VStr "Linear Algebra").
Proof.
  apply (load_course_names_from_path (Ok "Union") true
           (file_of "LA/lecture/info.yaml" (VDict [(KStr "name", VInt 5)]))).
  reflexivity.
Defined.




Lemma assoc_In : forall {V : Type} k (l : list (string * V)) v,
    assoc k l = Some v -> exists k', String.eqb k' k = true /\ In (k', v) l.
Proof.
  intros V k l v. induction l as [|[k0 v0] l IH]; simpl; intro H; [discriminate|].
  destruct (String.eqb k0 k) eqn:E.
  - injection H as <-. exists k0. auto.
  - destruct (IH H) as (k' & Hk & Hin). exists k'. auto.
Qed.

Lemma construct_conforms : forall union_name c kwargs v,
    construct union_name c kwargs = Ok v ->
    (forall f x ann k, In (f, x) kwargs -> fieldtype c f = Some ann ->
                       dataclass_of ann = Some k -> conforms k x) ->
    conforms c v.
Proof.
  intros union_name c kwargs v H Hnested.
  destruct (construct_ok _ _ _ _ H) as [-> Hall].
  rewrite check_all_ok in Hall. constructor.
  - intros fd Hin. eapply check_field_accepts. apply Hall, Hin.
  - intros fd k Hin Hk. unfold field_value.
    destruct (assoc (fname fd) kwargs) as [x|] eqn:E; [|left; reflexivity].
    right. destruct (assoc_In _ _ _ E) as (f & Hf & Hx).
    apply String.eqb_eq in Hf. subst f.
    eapply Hnested; [exact Hx | apply fieldtype_fname, Hin | exact Hk].
Qed.

Lemma from_dictionary_conforms : forall union_name d ann v k,
    from_dictionary union_name ann d = Ok v ->
    dataclass_of ann = Some k ->
    conforms k v.
Proof.
  intros union_name d.
  induction d as [items IH|d Hd] using value_dict_ind; intros ann v k H Hk;
    apply dataclass_of_some in Hk; subst ann.
  - rewrite from_dictionary_dict in H.
    destruct (convert_items union_name k items) as [kwargs|e] eqn:Ec;
      cbn [bind] in H; [|discriminate].
    eapply construct_conforms; [exact H|].
    clear H v. revert kwargs Ec.
    induction IH as [|[[g|r] x] items Hx _ IHitems]; intros kwargs Ec; simpl in Ec.
    + injection Ec as <-. intros f y ann k' [].
    + destruct (fieldtype k g) as [ann0|] eqn:Eg; [|discriminate].
      destruct (from_dictionary union_name ann0 x) as [x'|e1] eqn:E1;
        cbn [bind] in Ec; [|discriminate].
      destruct (convert_items union_name k items) as [kws|e2] eqn:E2;
        cbn [bind] in Ec; [|discriminate].
      injection Ec as <-. intros f y ann k' [Heq|Hin] Hf Hk'.
      * injection Heq as <- <-. rewrite Eg in Hf. injection Hf as <-.
        eapply Hx; eassumption.
      * eapply (IHitems kws eq_refl); eassumption.
    + discriminate.
  - destruct d; cbn [from_dictionary dataclass_of] in H; try discriminate.
    + destruct s; [|destruct (fieldtype k _); discriminate].
      eapply construct_conforms; [exact H|]. intros f y ann k' [].
    + destruct xs as [|x xs].
      * eapply construct_conforms; [exact H|]. intros f y ann k' [].
      * destruct x; cbn [repr_key] in H;
          repeat match type of H with
            | match ?b with _ => _ end = _ => destruct b
            end; discriminate.
    + exfalso. apply (Hd items). reflexivity.
Qed.

(** X15: every course a successful load returns has passed the strict
    check at every level: each field of the course, and of each section
    nested in it, holds [None] or an instance of a class it is annotated
    with.  No more courses are returned than there are files, and exactly
    one per file when unscheduled courses are included. *)
Theorem load_courses_conform : forall union_name include_unscheduled files courses,
    load_courses union_name include_unscheduled files = Ok courses ->
    Forall (conforms CCourse) courses /\
    (List.length courses <= List.length files)%nat /\
    (include_unscheduled = true -> List.length courses = List.length files).
Proof.
  intros union_name inc files. induction files as [|f files IH]; intros courses H.
  - injection H as <-. repeat split; auto.
  - cbn [load_courses] in H.
    destruct (load_course union_name inc f) as [r|e] eqn:Ef; cbn [bind] in H;
      [|discriminate].
    destruct (load_courses union_name inc files) as [rest|e] eqn:Er;
      cbn [bind] in H; [|discriminate].
    injection H as <-. destruct (IH rest eq_refl) as (Hall & Hle & Heq).
    destruct r as [v|].
    + split; [|split].
      * constructor; [|exact Hall].
        destruct (load_course_built _ _ _ _ Ef) as (document & items & _ & _ & Hfd).
        eapply from_dictionary_conforms; [exact Hfd | reflexivity].
      * simpl. lia.
      * intro Hi. simpl. rewrite (Heq Hi). reflexivity.
    + split; [exact Hall|]. split; [simpl; lia|].
      intros ->. exfalso.
      unfold load_course, load_body in Ef.
      destruct (parsed f) as [document|]; cbn [bind] in Ef; [|discriminate].
      destruct (course_dict_of _ _ _ document) as [cd|] eqn:Ec; cbn [bind] in Ef;
        [|discriminate].
      destruct (course_dict_of_inv _ _ _ _ _ Ec) as [items0 ->].
      rewrite orb_true_r in Ef.
      destruct (from_dictionary _ _ _); discriminate.
Qed.

Lemma load_courses_conform_witness :
  Forall (conforms CCourse)
    [VObj CCourse
       [("name", VStr "Linear Algebra"); ("type", VStr "lecture");
        ("abbreviation", VStr "LA"); ("teacher", VNone); ("time", VNone);
        ("classroom", VNone); ("website", VNone); ("finals", VNone);
        ("other", VNone)]].
Proof.
  apply (load_courses_conform (Ok "Union") true
           [file_of "LA/lecture/info.yaml" VNone]).
  reflexivity.
Defined.

(** ** Unscheduled courses and the default query *)

Lemma no_schedule_sorted : forall discovered,
    (forall c, In c discovered -> has_time c = false) ->
    get_sorted_courses discovered false = Ok [].
Proof.
  intros discovered H. unfold get_sorted_courses.
  replace (filter (fun c => has_time c || false) discovered) with (@nil Course).
  - reflexivity.
  - symmetry. induction discovered as [|c l IH]; simpl; [reflexivity|].
    rewrite (H c (or_introl eq_refl)). simpl. apply IH.
    intros; apply H; right; assumption.
Qed.

(** X16: the query as every caller runs it, without unscheduled courses,
    never returns a course without a time section; so the list of
    unscheduled courses that [list_courses] picks out of it is always
    empty. *)
Theorem default_query_has_no_unscheduled : forall discovered courses,
    get_sorted_courses discovered false = Ok courses ->
    filter (fun c => negb (has_time c)) courses = [] /\
    filter has_time courses = courses.
Proof.
  intros discovered courses H.
  assert (Hall : forall c, In c courses -> has_time c = true).
  { intros c Hc. destruct (scheduled_courses_timed _ _ H c Hc) as (t & w & Ht & _).
    unfold has_time. rewrite Ht. reflexivity. }
  clear H. induction courses as [|c l IH]; [split; reflexivity|].
  simpl. rewrite (Hall c (or_introl eq_refl)). simpl.
  destruct IH as [IH1 IH2]; [intros; apply Hall; right; assumption|].
  rewrite IH1, IH2. split; reflexivity.
Qed.

Lemma default_query_has_no_unscheduled_witness :
  filter (fun c => negb (has_time c)) [monday_9] = [] /\
  filter has_time [monday_9] = [monday_9].
Proof.
  apply (default_query_has_no_unscheduled [unscheduled_course; monday_9]).
  reflexivity.
Defined.

(** ** Opening a course without a schedule *)

(** X17: when no course is scheduled, opening the website, the folder or
    the notes of the current or next course raises [AttributeError] on the
    [None] that the next-course query returned; it neither leaves with
    "No course matching the criteria." nor raises the [TypeError] that the
    dispatcher reports. *)
Theorem open_course_without_schedule :
  forall unidecode isfile today discovered kind argument,
    (forall c, In c discovered -> has_time c = false) ->
    argument = None \/ argument = Some "n" \/ argument = Some "next" ->
    kind = "website" \/ kind = "folder" \/ kind = "notes" ->
    open_course unidecode isfile today discovered kind argument
    = Raise AttributeError.
Proof.
  intros unidecode isfile today discovered kind argument H Ha Hk.
  assert (Hs := no_schedule_sorted discovered H).
  assert (Hc : get_course_from_argument unidecode today discovered argument
               = Ok [None]).
  { destruct Ha as [->|[->| ->]];
      unfold get_course_from_argument, get_ongoing_course, get_course_from_string,
        next_course; cbn [String.eqb Ascii.eqb Bool.eqb orb];
      rewrite Hs; reflexivity. }
  unfold open_course. rewrite Hc. cbn [bind].
  destruct Hk as [->|[->| ->]]; reflexivity.
Qed.

Lemma open_course_without_schedule_witness :
  open_course (fun s => s) (fun _ => true) monday_0830 [unscheduled_course]
    "folder" None = Raise AttributeError.
Proof.
  apply (open_course_without_schedule (fun s => s) (fun _ => true) monday_0830
           [unscheduled_course] "folder" None).
  - intros c [<-|[]]. reflexivity.
  - left. reflexivity.
  - right. left. reflexivity.
Defined.

(** ** The walk down the tree *)

Lemma mapM_score_item_inv : forall {A : Type} argument
    (items : list (list string * tree A)) scored,
    mapM (score_item argument) items = Ok scored ->
    scored = map (fun item => (token_length_score argument (fst item), fst item)) items.
Proof.
  intros A argument items. induction items as [|[d sub] items IH]; intros scored H.
  - injection H as <-. reflexivity.
  - cbn [mapM] in H. unfold score_item at 1 in H. cbn [fst] in H.
    destruct d as [|s d]; [discriminate|].
    rewrite (score_value argument (s :: d)) in H by discriminate.
    cbn [bind] in H.
    destruct (mapM (score_item argument) items) as [rest|e]; cbn [bind] in H;
      [|discriminate].
    injection H as <-. cbn [map fst]. f_equal. apply IH. reflexivity.
Qed.

Lemma getitem_In : forall {A : Type} d (items : list (list string * tree A)) sub,
    getitem d items = Some sub -> In (d, sub) items.
Proof.
  intros A d items sub. induction items as [|[d' sub'] items IH]; simpl; intro H.
  - discriminate.
  - destruct (list_eq_dec string_dec d' d) as [->|_].
    + injection H as ->. left. reflexivity.
    + right. apply IH, H.
Qed.

Lemma descend_ok : forall {A : Type} argument (items : list (list string * tree A))
    d sub,
    descend argument items = Ok (d, sub) ->
    In (d, sub) items /\ matches argument d = true /\ argument <> EmptyString.
Proof.
  intros A argument items d sub H. unfold descend in H.
  destruct (mapM (score_item argument) items) as [scored|e] eqn:Em;
    cbn [bind] in H; [|discriminate].
  apply mapM_score_item_inv in Em. subst scored.
  set (g := fun item : list string * tree A =>
              (token_length_score argument (fst item), fst item)) in *.
  set (decisions := sorted (fun x => x) decision_leb (map g items)) in *.
  destruct decisions as [|x0 rest] eqn:Edec; [discriminate|].
  rewrite <- Edec in H.
  set (best := fst (last decisions (0%nat, []))) in *.
  destruct (Nat.eqb_spec best 0) as [|Hbest]; [discriminate|].
  destruct (1 <? _)%nat; [discriminate|].
  destruct (filter _ decisions) as [|[s0 d0] tied] eqn:Ef; [discriminate|].
  destruct (getitem d0 items) as [sub0|] eqn:Eg; [|discriminate].
  injection H as <- <-. split; [apply getitem_In, Eg|].
  assert (Hin : In (s0, d0) (filter (fun x => (fst x =? best)%nat) decisions))
    by (rewrite Ef; left; reflexivity).
  apply filter_In in Hin. destruct Hin as [Hin Hs].
  apply Nat.eqb_eq in Hs. cbn [fst] in Hs.
  apply (Permutation_in _ (sorted_perm (fun x => x) decision_leb (map g items)))
    in Hin.
  apply in_map_iff in Hin. destruct Hin as (item & Hitem & _).
  unfold g in Hitem. injection Hitem as Hsc Hd. subst d0.
  unfold token_length_score in Hsc.
  destruct (matches argument (fst item)); [|lia].
  split; [reflexivity|]. intros ->. simpl in Hsc. lia.
Qed.

(** X18: when the walk ends on a callable, the arguments split into the
    tokens it consumed and the arguments it hands to the callable; the
    alias tuples it noted are a path of the tree from the node it started
    at to that callable, one tuple per consumed token; and each consumed
    token is not empty and starts one of the aliases of its tuple. *)
Theorem dispatch_route : forall (A : Type) arguments (node : tree A)
    parsed_arguments f rest parsed_arguments',
    dispatch arguments node parsed_arguments = Ok (f, rest, parsed_arguments') ->
    exists consumed ds,
      arguments = consumed ++ rest /\
      parsed_arguments' = parsed_arguments ++ ds /\
      List.length consumed = List.length ds /\
      route node consumed ds f.
Proof.
  intros A arguments. induction arguments as [|a args IH];
    intros node parsed f rest parsed' H.
  - destruct node as [f0 descr|items]; simpl in H; [|discriminate].
    injection H as <- <- <-. exists [], [].
    split; [reflexivity|]. split; [symmetry; apply app_nil_r|].
    split; [reflexivity | constructor].
  - destruct node as [f0 descr|items]; cbn [dispatch] in H.
    + injection H as <- <- <-. exists [], [].
      split; [reflexivity|]. split; [symmetry; apply app_nil_r|].
      split; [reflexivity | constructor].
    + destruct (descend a items) as [[d sub]|e] eqn:Ed; cbn [bind] in H;
        [|discriminate].
      cbn [fst snd] in H.
      destruct (IH _ _ _ _ _ H) as (consumed & ds & -> & -> & Hlen & Hroute).
      destruct (descend_ok _ _ _ _ Ed) as (Hin & Hm & Hne).
      exists (a :: consumed), (d :: ds). repeat split.
      * rewrite <- app_assoc. reflexivity.
      * simpl. rewrite Hlen. reflexivity.
      * econstructor; eassumption.
Qed.

Lemma dispatch_route_witness :
  exists consumed ds,
    ["o"; "co"; "la-p"] = consumed ++ ["la-p"] /\
    [["open"]; ["folder"; "course"]] = [] ++ ds /\
    List.length consumed = List.length ds /\
    route decision_tree consumed ds do_open_folder.
Proof.
  apply (dispatch_route action ["o"; "co"; "la-p"] decision_tree []
           do_open_folder ["la-p"] [["open"]; ["folder"; "course"]]).
  reflexivity.
Defined.

(** ** The crontab block *)

Lemma beginning_not_end : forall line, is_beginning line = true -> is_end line = false.
Proof.
  intros line H. unfold is_beginning in H. apply String.eqb_eq in H.
  unfold is_end. rewrite H. reflexivity.
Qed.

Lemma skip_to_end_found : forall inner e suffix,
    forallb (fun l => negb (is_end l)) inner = true ->
    is_end e = true ->
    skip_to_end (inner ++ e :: suffix) = Ok suffix.
Proof.
  intros inner e suffix Hin He. induction inner as [|l inner IH]; simpl.
  - fold (is_end e). rewrite He. reflexivity.
  - cbn [forallb] in Hin. apply andb_prop in Hin. destruct Hin as [Hl Hin].
    fold (is_end l). rewrite Hl. apply IH, Hin.
Qed.

Lemma skip_to_end_missing : forall l,
    forallb (fun l => negb (is_end l)) l = true -> skip_to_end l = Raise IndexError.
Proof.
  induction l as [|x l IH]; simpl; intro H; [reflexivity|].
  apply andb_prop in H. destruct H as [Hx Hl].
  fold (is_end x). rewrite Hx. apply IH, Hl.
Qed.


Lemma copy_head_block : forall prefix b tail,
    forallb (fun l => negb (is_beginning l)) prefix = true ->
    is_beginning b = true ->
    copy_head (prefix ++ b :: tail)
    = (rest' <- skip_to_end tail ;; Ok (prefix, rest')).
Proof.
  intros prefix b tail Hp Hb. induction prefix as [|l prefix IH].
  - cbn [app copy_head]. fold (is_beginning b). rewrite Hb.
    cbn [skip_to_end]. fold (is_end b). rewrite (beginning_not_end b Hb).
    cbn [negb]. reflexivity.
  - cbn [forallb] in Hp. apply andb_prop in Hp. destruct Hp as [Hl Hp].
    apply negb_true_iff in Hl.
    cbn [app copy_head]. fold (is_beginning l). rewrite Hl, (IH Hp).
    destruct (skip_to_end tail); reflexivity.
Qed.


Lemma minute_head_checked :
  forallb
    (fun z => match str_of_int z with
              | String c _ => negb (is_space c) && negb (Ascii.eqb c "#")
              | EmptyString => false
              end)
    (map Z.of_nat (seq 0 (Z.to_nat 60))) = true.
Proof. vm_compute. reflexivity. Qed.

Lemma cron_line_not_end : forall user time d body,
    is_end (cron_line user (get_cron_schedule time d) body) = false.
Proof.
  intros user time d body.
  pose proof (Z_range_forallb _ 60%Z minute_head_checked (time mod 60)%Z
                (Z.mod_pos_bound time 60 eq_refl)) as H.
  cbv beta in H. unfold cron_line, get_cron_schedule.
  destruct (str_of_int (time mod 60)) as [|c r]; [discriminate|].
  apply andb_prop in H. destruct H as [Hsp Hhash].
  apply negb_true_iff in Hsp, Hhash.
  cbn [append]. unfold is_end, strip. cbn [lstrip]. rewrite Hsp.
  cbn [rstrip]. rewrite Hsp.
  match goal with
  | |- context [rstrip ?x] => destruct (rstrip x)
  end; unfold cron_end; cbn [String.eqb]; rewrite Hhash; reflexivity.
Qed.

Lemma cron_lines_facts : forall user courses j c lines,
    cron_lines user courses j c = Ok lines ->
    List.length lines = 2%nat /\
    forallb (fun l => negb (is_end l)) lines = true.
Proof.
  intros user courses j c lines H. unfold cron_lines in H.
  destruct (time_of c) as [t|]; cbn [bind] in H; [|discriminate].
  destruct (weekday c) as [w|]; cbn [bind] in H; [|discriminate].
  destruct (get_next_course_message j courses) as [m|]; cbn [bind] in H;
    [|discriminate].
  injection H as <-. split; [reflexivity|].
  cbn [forallb]. rewrite !cron_line_not_end. reflexivity.
Qed.

Lemma cron_block_from_facts : forall user courses todo j block,
    cron_block_from user courses j todo = Ok block ->
    List.length block = (2 * List.length todo)%nat /\
    forallb (fun l => negb (is_end l)) block = true.
Proof.
  intros user courses todo. induction todo as [|c todo IH]; intros j block H.
  - injection H as <-. split; reflexivity.
  - cbn [cron_block_from] in H.
    destruct (cron_lines user courses j c) as [lines|] eqn:El; cbn [bind] in H;
      [|discriminate].
    destruct (cron_block_from user courses (S j) todo) as [rest|] eqn:Er;
      cbn [bind] in H; [|discriminate].
    injection H as <-.
    destruct (cron_lines_facts _ _ _ _ _ El) as [Hl1 Hl2].
    destruct (IH _ _ Er) as [Hr1 Hr2].
    split.
    + rewrite length_app, Hl1, Hr1. simpl. lia.
    + rewrite forallb_app, Hl2, Hr2. reflexivity.
Qed.

Lemma course_at_index_timed : forall courses i,
    (forall c, In c courses -> exists t w, time c = Some t /\ weekday c = Ok w) ->
    (i < List.length courses)%nat ->
    exists c t, course_at_index courses i = Ok c /\ time_of c = Ok t.
Proof.
  intros courses i Hall Hi. unfold course_at_index.
  destruct (nth_error courses i) as [c|] eqn:E.
  - destruct (Hall c (nth_error_In _ _ E)) as (t & w & Ht & _).
    exists c, t. split; [reflexivity|]. unfold time_of. rewrite Ht. reflexivity.
  - apply nth_error_None in E. lia.
Qed.

Lemma get_next_course_message_total : forall courses j,
    (forall c, In c courses -> exists t w, time c = Some t /\ weekday c = Ok w) ->
    (j < List.length courses)%nat ->
    exists m, get_next_course_message j courses = Ok m.
Proof.
  intros courses j Hall Hj. unfold get_next_course_message.
  destruct (course_at_index_timed courses j Hall Hj) as (c & t & Hc & Ht).
  destruct (Nat.leb_spec (List.length courses) (j + 1)) as [Hlast|Hmore].
  - cbn [bind]. eexists. reflexivity.
  - destruct (course_at_index_timed courses (j + 1) Hall Hmore) as (c' & t' & Hc' & Ht').
    rewrite Hc, Hc'. cbn [bind]. rewrite Ht, Ht'. cbn [bind].
    destruct (negb (String.eqb (day t) (day t'))); cbn [bind].
    + eexists. reflexivity.
    + rewrite Ht'. cbn [bind]. eexists. reflexivity.
Qed.

Lemma cron_block_from_total : forall user courses todo done,
    (forall c, In c courses -> exists t w, time c = Some t /\ weekday c = Ok w) ->
    courses = done ++ todo ->
    exists block, cron_block_from user courses (List.length done) todo = Ok block.
Proof.
  intros user courses todo. induction todo as [|c todo IH]; intros done Hall Hsplit.
  - eexists. reflexivity.
  - cbn [cron_block_from].
    assert (Hc : In c courses).
    { rewrite Hsplit. apply in_or_app. right. left. reflexivity. }
    destruct (Hall c Hc) as (t & w & Ht & Hw).
    destruct (get_next_course_message_total courses (List.length done) Hall)
      as [m Hm].
    { rewrite Hsplit, length_app. simpl. lia. }
    unfold cron_lines, time_of. rewrite Ht, Hw. cbn [bind]. rewrite Hm. cbn [bind].
    destruct (IH (done ++ [c]) Hall) as [rest Hrest].
    { rewrite Hsplit, <- app_assoc. reflexivity. }
    rewrite length_app in Hrest. simpl in Hrest.
    replace (List.length done + 1)%nat with (S (List.length done)) in Hrest by lia.
    rewrite Hrest. cbn [bind]. eexists. reflexivity.
Qed.

(** The block of a schedule the query returned *)
Lemma cron_block_of_schedule : forall user discovered courses,
    get_sorted_courses discovered false = Ok courses ->
    exists block,
      cron_block user courses = Ok block /\
      List.length block = (2 * List.length courses)%nat /\
      forallb (fun l => negb (is_end l)) block = true.
Proof.
  intros user discovered courses H.
  destruct (cron_block_from_total user courses courses []
              (scheduled_courses_timed _ _ H) eq_refl) as [block Hb].
  exists block. split; [exact Hb|]. apply (cron_block_from_facts _ _ _ _ _ Hb).
Qed.





(** X20: on a crontab that has the block, the lines before the beginning
    comment and the lines after the end comment are kept as they are, and
    what lay between the two comments is replaced by the new block. *)
Theorem compile_cron_jobs_replaces :
  forall user discovered courses prefix b inner e suffix,
    get_sorted_courses discovered false = Ok courses ->
    forallb (fun l => negb (is_beginning l)) prefix = true ->
    is_beginning b = true ->
    forallb (fun l => negb (is_end l)) inner = true ->
    is_end e = true ->
    exists block,
      cron_block user courses = Ok block /\
      List.length block = (2 * List.length courses)%nat /\
      compile_cron_jobs user discovered (prefix ++ b :: inner ++ e :: suffix)
      = Ok (prefix ++ [(cron_beginning ++ newline)%string] ++ block
            ++ [(cron_end ++ newline)%string] ++ suffix).
Proof.
  intros user discovered courses prefix b inner e suffix Hs Hp Hb Hi He.
  destruct (cron_block_of_schedule user _ _ Hs) as (block & Hblock & Hlen & _).
  exists block. split; [exact Hblock|]. split; [exact Hlen|].
  unfold compile_cron_jobs. rewrite Hs. cbn [bind].
  rewrite (copy_head_block prefix b _ Hp Hb), (skip_to_end_found inner e suffix Hi He).
  cbn [bind]. rewrite Hblock. reflexivity.
Qed.

Lemma compile_cron_jobs_replaces_witness :
  exists block,
    cron_block "me" [monday_9] = Ok block /\
    List.length block = (2 * List.length [monday_9])%nat /\
    compile_cron_jobs "me" [monday_9]
      (["SHELL=/bin/sh"] ++ (cron_beginning ++ newline)%string
       :: ["0 0 * * 1 me old"] ++ (cron_end ++ newline)%string :: ["# after"])
    = Ok (["SHELL=/bin/sh"] ++ [(cron_beginning ++ newline)%string] ++ block
          ++ [(cron_end ++ newline)%string] ++ ["# after"]).
Proof.
  apply (compile_cron_jobs_replaces "me" [monday_9] [monday_9] ["SHELL=/bin/sh"]
           (cron_beginning ++ newline)%string ["0 0 * * 1 me old"]
           (cron_end ++ newline)%string ["# after"]); reflexivity.
Defined.

(** X21: on a crontab that has the beginning comment and no end comment
    after it, the search for the end runs past the last line and raises
    [IndexError]. *)
Theorem compile_cron_jobs_without_end : forall user discovered courses prefix b rest,
    get_sorted_courses discovered false = Ok courses ->
    forallb (fun l => negb (is_beginning l)) prefix = true ->
    is_beginning b = true ->
    forallb (fun l => negb (is_end l)) rest = true ->
    compile_cron_jobs user discovered (prefix ++ b :: rest) = Raise IndexError.
Proof.
  intros user discovered courses prefix b rest Hs Hp Hb Hr.
  unfold compile_cron_jobs. rewrite Hs. cbn [bind].
  rewrite (copy_head_block prefix b _ Hp Hb), (skip_to_end_missing rest Hr).
  reflexivity.
Qed.

Lemma compile_cron_jobs_without_end_witness :
  compile_cron_jobs "me" [monday_9]
    (["SHELL=/bin/sh"] ++ (cron_beginning ++ newline)%string :: ["0 0 * * 1 me old"])
  = Raise IndexError.
Proof.
  apply (compile_cron_jobs_without_end "me" [monday_9] [monday_9] ["SHELL=/bin/sh"]
           (cron_beginning ++ newline)%string ["0 0 * * 1 me old"]); reflexivity.
Defined.


